(** * ElderlyMonitoringFHE: the decrypt-request / verified-callback protocol

    A shallow embedding of the Solidity contract [ElderlyMonitoringFHE]:
    its storage, its six state-changing entry points and its one view
    function, with the fhEVM library ([FHE.requestDecryption],
    [FHE.checkSignatures]) and the [abi.decode] builtin taken as an
    interface.  Every entry point is a function from a world to a result:
    either the next world or the failure the transaction reverts with. *)

From Stdlib Require Import NArith Strings.Byte.
From stdpp Require Import gmap strings list.

Local Open Scope N_scope.

(** ** Machine integers *)

(** [uint256] values are naturals below [2^256]; Solidity 0.8 arithmetic is
    checked, so an addition that leaves the range reverts. *)
Abbreviation uint256 := N (only parsing).
Abbreviation euint32 := N (only parsing).
Abbreviation bytes32 := N (only parsing).
Abbreviation bytes := (list byte) (only parsing).

Definition max_uint256 : N := 2 ^ 256 - 1.

(** ** Failures *)

(** The ways a transaction reverts.  The first four are the [require]
    messages of the contract; [InvalidProof] is the revert raised inside
    [FHE.checkSignatures], [DecodeFailure] the one raised by [abi.decode] on
    malformed input, [Overflow] the arithmetic panic of [+= 1].
    [Unauthorized] is the failure the access-control hook would signal; the
    placeholder modifier of the contract never raises it. *)
Inductive failure : Type :=
| DataNotFound     (* "Data not found" *)
| AlertNotFound    (* "Alert not found" *)
| InvalidRequest   (* "Invalid request" *)
| AlreadyHandled   (* "Already handled" *)
| InvalidProof
| DecodeFailure
| Overflow
| Unauthorized.

Inductive result (A : Type) : Type :=
| Ok (a : A)
| Revert (f : failure).
Arguments Ok {A} a.
Arguments Revert {A} f.

Definition result_bind {A B} (m : result A) (k : A -> result B) : result B :=
  match m with
  | Ok a => k a
  | Revert f => Revert f
  end.

Notation "'do' x <- m ; k" := (result_bind m (fun x => k))
  (at level 10, x pattern, m at level 100, k at level 200).
Notation "'do_' m ; k" := (result_bind m (fun _ => k))
  (at level 10, m at level 100, k at level 200).

(** [require(cond, msg)] *)
Definition require (cond : bool) (f : failure) : result unit :=
  if cond then Ok tt else Revert f.

(** [a + b] on [uint256], checked. *)
Definition checked_add (a b : uint256) : result uint256 :=
  if a + b <=? max_uint256 then Ok (a + b) else Revert Overflow.

(** ** Storage layout *)

Record EncryptedSensorData : Type := mkSensorData {
  sd_id : uint256;
  encryptedActivityVector : euint32;
  encryptedSleepVector : euint32;
  sd_timestamp : uint256
}.

Record EncryptedAlert : Type := mkAlert {
  al_id : uint256;
  encryptedAlertPayload : euint32;
  al_timestamp : uint256
}.

Record DecryptedEvent : Type := mkDecryptedEvent {
  summary : string;
  isHandled : bool
}.

(** A Solidity mapping is total: a key that was never written reads as the
    zero value of the value type. *)
Class Zero (V : Type) := zero : V.
Global Instance uint256_zero : Zero N := 0.
Global Instance sensor_zero : Zero EncryptedSensorData := mkSensorData 0 0 0 0.
Global Instance alert_zero : Zero EncryptedAlert := mkAlert 0 0 0.
Global Instance event_zero : Zero DecryptedEvent := mkDecryptedEvent "" false.

Definition sload {V} `{Zero V} (m : gmap N V) (k : uint256) : V :=
  default zero (m !! k).

Record Storage : Type := mkStorage {
  sensorDataCount : uint256;
  alertCount : uint256;
  sensorDatas : gmap N EncryptedSensorData;
  encryptedAlerts : gmap N EncryptedAlert;
  decryptedEvents : gmap N DecryptedEvent;
  requestToDataId : gmap N N;
  requestToAlertId : gmap N N
}.

Definition set_sensorDataCount (n : uint256) (s : Storage) : Storage :=
  mkStorage n (alertCount s) (sensorDatas s) (encryptedAlerts s)
            (decryptedEvents s) (requestToDataId s) (requestToAlertId s).
Definition set_alertCount (n : uint256) (s : Storage) : Storage :=
  mkStorage (sensorDataCount s) n (sensorDatas s) (encryptedAlerts s)
            (decryptedEvents s) (requestToDataId s) (requestToAlertId s).
Definition set_sensorDatas (m : gmap N EncryptedSensorData) (s : Storage) : Storage :=
  mkStorage (sensorDataCount s) (alertCount s) m (encryptedAlerts s)
            (decryptedEvents s) (requestToDataId s) (requestToAlertId s).
Definition set_encryptedAlerts (m : gmap N EncryptedAlert) (s : Storage) : Storage :=
  mkStorage (sensorDataCount s) (alertCount s) (sensorDatas s) m
            (decryptedEvents s) (requestToDataId s) (requestToAlertId s).
Definition set_decryptedEvents (m : gmap N DecryptedEvent) (s : Storage) : Storage :=
  mkStorage (sensorDataCount s) (alertCount s) (sensorDatas s) (encryptedAlerts s)
            m (requestToDataId s) (requestToAlertId s).
Definition set_requestToDataId (m : gmap N N) (s : Storage) : Storage :=
  mkStorage (sensorDataCount s) (alertCount s) (sensorDatas s) (encryptedAlerts s)
            (decryptedEvents s) m (requestToAlertId s).
Definition set_requestToAlertId (m : gmap N N) (s : Storage) : Storage :=
  mkStorage (sensorDataCount s) (alertCount s) (sensorDatas s) (encryptedAlerts s)
            (decryptedEvents s) (requestToDataId s) m.

Definition empty_storage : Storage := mkStorage 0 0 ∅ ∅ ∅ ∅ ∅.

(** ** Events *)

Inductive Event : Type :=
| SensorDataSubmitted (id timestamp : uint256)
| AnomalyDetectionRequested (id : uint256)
| AnomalyDetected (id : uint256)
| EncryptedAlertSubmitted (id timestamp : uint256)
| AlertDecryptionRequested (id : uint256)
| AlertDecrypted (id : uint256).

(** ** The library interface *)

(** The callback selectors passed to [FHE.requestDecryption]. *)
Inductive selector : Type :=
| handleAnomalyResult_selector
| handleAlertCleartext_selector.

(** What the contract imports and does not define; the library's sources are
    not part of the repository, so its operations are parameters and their
    shape is the oracle integration contract of the specification: a request
    for a list of ciphertext handles and a callback selector returns a request
    id synchronously and updates the library's own bookkeeping
    ([requestDecryption]); [checkSignatures] tells whether the proof
    authenticates the cleartexts for the request id (the library reverts when
    it does not).  The two decoders are [abi.decode(_, (string[]))] and
    [abi.decode(_, (string))], [None] when the builtin reverts. *)
Class FHEVM : Type := {
  Oracle : Type;
  requestDecryption : Oracle -> list bytes32 -> selector -> uint256 * Oracle;
  checkSignatures : Oracle -> uint256 -> bytes -> bytes -> bool;
  abi_decode_strings : bytes -> option (list string);
  abi_decode_string : bytes -> option string
}.

(** [FHE.toBytes32] unwraps a handle. *)
Definition toBytes32 (h : euint32) : bytes32 := h.

(** The transaction context: [block.timestamp] and [msg.sender]. *)
Record Ctx : Type := mkCtx {
  block_timestamp : uint256;
  msg_sender : N
}.

Section Contract.
Context `{F : FHEVM}.

(** The world a transaction runs in: the contract's storage, the library's
    state and the log of events emitted so far (oldest first). *)
Record World : Type := mkWorld {
  storage : Storage;
  oracle : Oracle;
  logs : list Event
}.

Definition genesis (o : Oracle) : World := mkWorld empty_storage o [].

Definition with_storage (s : Storage) (w : World) : World :=
  mkWorld s (oracle w) (logs w).
Definition emit (e : Event) (w : World) : World :=
  mkWorld (storage w) (oracle w) (logs w ++ [e]).

Definition decode_strings (cleartexts : bytes) : result (list string) :=
  match abi_decode_strings cleartexts with
  | Some l => Ok l
  | None => Revert DecodeFailure
  end.

Definition decode_string (cleartexts : bytes) : result string :=
  match abi_decode_string cleartexts with
  | Some s => Ok s
  | None => Revert DecodeFailure
  end.

(** [modifier onlySource() { _; }]: a placeholder that runs the body. *)
Definition onlySource {A} (ctx : Ctx) (body : result A) : result A := body.

(** ** Entry points *)

Definition submitEncryptedSensorData (ctx : Ctx)
    (activity sleep : euint32) (w : World) : result World :=
  do count <- checked_add (sensorDataCount (storage w)) 1;
  let s1 := set_sensorDataCount count (storage w) in
  let newId := sensorDataCount s1 in
  let s2 := set_sensorDatas
              (<[newId := mkSensorData newId activity sleep (block_timestamp ctx)]>
                 (sensorDatas s1)) s1 in
  let s3 := set_decryptedEvents
              (<[newId := mkDecryptedEvent "" false]> (decryptedEvents s2)) s2 in
  Ok (emit (SensorDataSubmitted newId (block_timestamp ctx)) (with_storage s3 w)).

Definition requestAnomalyDetection (ctx : Ctx) (dataId : uint256) (w : World)
    : result World :=
  onlySource ctx (
    let dataRecord := sload (sensorDatas (storage w)) dataId in
    do_ require (negb (sd_id dataRecord =? 0)) DataNotFound;
    let ciphertexts := [toBytes32 (encryptedActivityVector dataRecord);
                        toBytes32 (encryptedSleepVector dataRecord)] in
    let '(reqId, o) := requestDecryption (oracle w) ciphertexts
                                         handleAnomalyResult_selector in
    let s1 := set_requestToDataId
                (<[reqId := dataId]> (requestToDataId (storage w))) (storage w) in
    Ok (emit (AnomalyDetectionRequested dataId) (mkWorld s1 o (logs w)))).

Definition handleAnomalyResult (ctx : Ctx) (requestId : uint256)
    (cleartexts proof : bytes) (w : World) : result World :=
  let dataId := sload (requestToDataId (storage w)) requestId in
  do_ require (negb (dataId =? 0)) InvalidRequest;
  let ev := sload (decryptedEvents (storage w)) dataId in
  do_ require (negb (isHandled ev)) AlreadyHandled;
  do_ require (checkSignatures (oracle w) requestId cleartexts proof) InvalidProof;
  do results <- decode_strings cleartexts;
  let ev1 := mkDecryptedEvent (match results with r0 :: _ => r0 | [] => "" end)
                              (isHandled ev) in
  let ev2 := mkDecryptedEvent (summary ev1) true in
  let s1 := set_decryptedEvents
              (<[dataId := ev2]> (decryptedEvents (storage w))) (storage w) in
  Ok (emit (AnomalyDetected dataId) (with_storage s1 w)).

Definition submitEncryptedAlert (ctx : Ctx) (payload : euint32) (w : World)
    : result World :=
  do count <- checked_add (alertCount (storage w)) 1;
  let s1 := set_alertCount count (storage w) in
  let newId := alertCount s1 in
  let s2 := set_encryptedAlerts
              (<[newId := mkAlert newId payload (block_timestamp ctx)]>
                 (encryptedAlerts s1)) s1 in
  Ok (emit (EncryptedAlertSubmitted newId (block_timestamp ctx)) (with_storage s2 w)).

Definition requestAlertDecryption (ctx : Ctx) (alertId : uint256) (w : World)
    : result World :=
  onlySource ctx (
    let a := sload (encryptedAlerts (storage w)) alertId in
    do_ require (negb (al_id a =? 0)) AlertNotFound;
    let ciphertexts := [toBytes32 (encryptedAlertPayload a)] in
    let '(reqId, o) := requestDecryption (oracle w) ciphertexts
                                         handleAlertCleartext_selector in
    let s1 := set_requestToAlertId
                (<[reqId := alertId]> (requestToAlertId (storage w))) (storage w) in
    Ok (emit (AlertDecryptionRequested alertId) (mkWorld s1 o (logs w)))).

Definition handleAlertCleartext (ctx : Ctx) (requestId : uint256)
    (cleartexts proof : bytes) (w : World) : result World :=
  let alertId := sload (requestToAlertId (storage w)) requestId in
  do_ require (negb (alertId =? 0)) InvalidRequest;
  do_ require (checkSignatures (oracle w) requestId cleartexts proof) InvalidProof;
  do alertText <- decode_string cleartexts;
  Ok (emit (AlertDecrypted alertId) w).

(** [getDecryptedEvent]: a view, total on every id. *)
Definition getDecryptedEvent (dataId : uint256) (w : World) : string * bool :=
  let ev := sload (decryptedEvents (storage w)) dataId in
  (summary ev, isHandled ev).

End Contract.

(** ** Transactions and traces *)

Section Traces.
Context `{F : FHEVM}.

(** The external calls the contract accepts. *)
Inductive Call : Type :=
| SubmitEncryptedSensorData (activity sleep : euint32)
| RequestAnomalyDetection (dataId : uint256)
| HandleAnomalyResult (requestId : uint256) (cleartexts proof : bytes)
| SubmitEncryptedAlert (payload : euint32)
| RequestAlertDecryption (alertId : uint256)
| HandleAlertCleartext (requestId : uint256) (cleartexts proof : bytes).

Definition call (ctx : Ctx) (c : Call) (w : World) : result World :=
  match c with
  | SubmitEncryptedSensorData a s => submitEncryptedSensorData ctx a s w
  | RequestAnomalyDetection d => requestAnomalyDetection ctx d w
  | HandleAnomalyResult t c p => handleAnomalyResult ctx t c p w
  | SubmitEncryptedAlert p => submitEncryptedAlert ctx p w
  | RequestAlertDecryption a => requestAlertDecryption ctx a w
  | HandleAlertCleartext t c p => handleAlertCleartext ctx t c p w
  end.

(** A transaction is atomic: it commits the world its call returns, or
    reverts and leaves the world as it was. *)
Definition transact (ctx : Ctx) (c : Call) (w : World) : World :=
  match call ctx c w with
  | Ok w' => w'
  | Revert _ => w
  end.

Fixpoint run (txs : list (Ctx * Call)) (w : World) : World :=
  match txs with
  | [] => w
  | (ctx, c) :: rest => run rest (transact ctx c w)
  end.

(** The request id the library hands to [requestAnomalyDetection dataId] in
    world [w]. *)
Definition anomalyToken (dataId : uint256) (w : World) : uint256 :=
  let dataRecord := sload (sensorDatas (storage w)) dataId in
  fst (requestDecryption (oracle w)
         [toBytes32 (encryptedActivityVector dataRecord);
          toBytes32 (encryptedSleepVector dataRecord)]
         handleAnomalyResult_selector).

(** The tokens a transaction obtains through [requestAnomalyDetection]:
    one when that call commits, none otherwise. *)
Definition issued (ctx : Ctx) (c : Call) (w : World) : list uint256 :=
  match c with
  | RequestAnomalyDetection d =>
      match requestAnomalyDetection ctx d w with
      | Ok _ => [anomalyToken d w]
      | Revert _ => []
      end
  | _ => []
  end.

Fixpoint issued_tokens (txs : list (Ctx * Call)) (w : World) : list uint256 :=
  match txs with
  | [] => []
  | (ctx, c) :: rest => issued ctx c w ++ issued_tokens rest (transact ctx c w)
  end.

(** The record ids handed out by the submissions of a trace, in order. *)
Definition assigned (ctx : Ctx) (c : Call) (w : World) : list uint256 :=
  match c with
  | SubmitEncryptedSensorData a s =>
      match submitEncryptedSensorData ctx a s w with
      | Ok w' => [sensorDataCount (storage w')]
      | Revert _ => []
      end
  | _ => []
  end.

Fixpoint assigned_ids (txs : list (Ctx * Call)) (w : World) : list uint256 :=
  match txs with
  | [] => []
  | (ctx, c) :: rest => assigned ctx c w ++ assigned_ids rest (transact ctx c w)
  end.

Definition reachable (w : World) : Prop :=
  exists o txs, run txs (genesis o) = w.

(** What every reachable world satisfies, together with the tokens issued
    on the way to it: ids are dense in [1..sensorDataCount], nothing is
    stored outside that range, and every correlation entry points into it
    and was written for an issued token. *)
Record Inv (toks : list uint256) (ids : list uint256) (w : World) : Prop := mkInv {
  inv_count : sensorDataCount (storage w) <= max_uint256;
  inv_data_in : forall k, 1 <= k <= sensorDataCount (storage w) ->
      sd_id (sload (sensorDatas (storage w)) k) = k;
  inv_data_out : forall k, k = 0 \/ sensorDataCount (storage w) < k ->
      sensorDatas (storage w) !! k = None;
  inv_event_out : forall k, k = 0 \/ sensorDataCount (storage w) < k ->
      decryptedEvents (storage w) !! k = None;
  inv_request : forall t d, requestToDataId (storage w) !! t = Some d ->
      1 <= d <= sensorDataCount (storage w) /\ t ∈ toks;
  inv_ids : forall k, k ∈ ids <-> 1 <= k <= sensorDataCount (storage w)
}.

End Traces.

(** ** A reference library

    An executable stand-in for the imported library, used to run the contract
    on concrete inputs: request ids count up from the library's counter, a
    proof is a keyed checksum of the cleartexts, and the decoders follow the
    ABI layout (32-byte big-endian words, head offsets, length-prefixed
    strings). *)

Module Reference.

Definition byte_of (n : N) : byte := default x00 (Byte.of_N (n mod 256)).

(** The 32-byte big-endian word holding [n]. *)
Definition word (n : N) : bytes :=
  map (fun i => byte_of (n / 256 ^ (31 - N.of_nat i))) (seq 0 32).

Definition word_value (bs : bytes) : N :=
  foldl (fun acc b => acc * 256 + Byte.to_N b) 0 bs.

Definition read_slice (data : bytes) (pos len : N) : option bytes :=
  if pos + len <=? N.of_nat (length data)
  then Some (take (N.to_nat len) (drop (N.to_nat pos) data))
  else None.

Definition read_word (data : bytes) (pos : N) : option N :=
  word_value <$> read_slice data pos 32.

(** A length-prefixed string stored at [pos]. *)
Definition read_string (data : bytes) (pos : N) : option string :=
  len ← read_word data pos;
  bs ← read_slice data (pos + 32) len;
  Some (String.string_of_list_byte bs).

Definition decode_abi_string (data : bytes) : option string :=
  off ← read_word data 0;
  read_string data off.

Definition decode_abi_strings (data : bytes) : option (list string) :=
  off ← read_word data 0;
  n ← read_word data off;
  if 32 * n <=? N.of_nat (length data)
  then mapM (fun i => o ← read_word data (off + 32 + 32 * N.of_nat i);
                      read_string data (off + 32 + o))
            (seq 0 (N.to_nat n))
  else None.

Definition pad32 (bs : bytes) : bytes :=
  bs ++ replicate ((32 - length bs mod 32) mod 32)%nat x00.

Definition encode_tail (s : string) : bytes :=
  let bs := String.list_byte_of_string s in
  word (N.of_nat (length bs)) ++ pad32 bs.

Fixpoint tail_offsets (start : N) (tails : list bytes) : list N :=
  match tails with
  | [] => []
  | t :: rest => start :: tail_offsets (start + N.of_nat (length t)) rest
  end.

Definition encode_abi_strings (l : list string) : bytes :=
  let tails := map encode_tail l in
  word 32 ++ word (N.of_nat (length l))
    ++ concat (map word (tail_offsets (32 * N.of_nat (length l)) tails))
    ++ concat tails.

Definition encode_abi_string (s : string) : bytes :=
  word 32 ++ encode_tail s.

(** The keyed checksum that stands for the oracle's signature. *)
Definition digest (requestId : uint256) (cleartexts : bytes) : bytes :=
  word ((31 * requestId + word_value cleartexts) mod 2 ^ 256).

Definition fhevm : FHEVM := {|
  Oracle := N;
  requestDecryption := fun counter _ _ => (counter, counter + 1);
  checkSignatures := fun counter requestId cleartexts proof =>
    (requestId <? counter)
    && bool_decide (Byte.to_N <$> proof = Byte.to_N <$> digest requestId cleartexts);
  abi_decode_strings := decode_abi_strings;
  abi_decode_string := decode_abi_string
|}.

Definition ctx0 : Ctx := mkCtx 1700000000 42.

(** A worked scenario: one record with handles [(11, 22)], one anomaly
    request (token 0), one verified callback carrying two result strings;
    and, on the alert side, one alert with its decryption request. *)
Definition fall_cleartexts : bytes := encode_abi_strings ["fall_detected"; "ok"]%string.
Definition calm_cleartexts : bytes := encode_abi_strings ["no_anomaly"]%string.
Definition alert_cleartexts : bytes := encode_abi_string "door_open"%string.
(** The encoding of a bare 32-byte integer, which is not that of a string. *)
Definition raw_cleartexts : bytes := word 7.

Definition submit_tx : Ctx * Call := (ctx0, SubmitEncryptedSensorData 11 22).
Definition request_tx : Ctx * Call := (ctx0, RequestAnomalyDetection 1).
Definition deliver_tx : Ctx * Call :=
  (ctx0, HandleAnomalyResult 0 fall_cleartexts (digest 0 fall_cleartexts)).

Definition w_requested : @World fhevm :=
  run (F := fhevm) [submit_tx; request_tx] (genesis (F := fhevm) 0).
Definition w_handled : @World fhevm :=
  run (F := fhevm) [submit_tx; request_tx; deliver_tx] (genesis (F := fhevm) 0).

(** Two records, each with its own outstanding request (tokens 0 and 1). *)
Definition w_two_requests : @World fhevm :=
  run (F := fhevm)
      [submit_tx; (ctx0, SubmitEncryptedSensorData 33 44);
       (ctx0, RequestAnomalyDetection 1); (ctx0, RequestAnomalyDetection 2)]
      (genesis (F := fhevm) 0).

Definition w_alert_requested : @World fhevm :=
  run (F := fhevm)
      [(ctx0, SubmitEncryptedAlert 99); (ctx0, RequestAlertDecryption 1)]
      (genesis (F := fhevm) 0).

(** Both paths exercised once: a record is stored, requested (token 0) and
    handled; an alert is stored, requested (token 1) and notified. *)
Definition busy_txs : list (Ctx * Call) :=
  [submit_tx; (mkCtx 1700000060 42, SubmitEncryptedAlert 99);
   request_tx; (ctx0, RequestAlertDecryption 1); deliver_tx;
   (ctx0, HandleAlertCleartext 1 alert_cleartexts (digest 1 alert_cleartexts))].

Definition w_busy : @World fhevm :=
  run (F := fhevm) busy_txs (genesis (F := fhevm) 0).

End Reference.

(** ** Auxiliary definitions for the statements *)

Section Scenarios.
Context `{F : FHEVM}.

(** A batch of sensor submissions, each with its own context. *)
Definition submissions (subs : list (Ctx * (euint32 * euint32))) : list (Ctx * Call) :=
  map (fun sub => (sub.1, SubmitEncryptedSensorData sub.2.1 sub.2.2)) subs.

(** The ids [1..n]. *)
Definition ids_upto (n : nat) : list uint256 := map N.of_nat (seq 1 n).

(** The first decoded result, or the empty string. *)
Definition first_result (results : list string) : string :=
  match results with
  | r0 :: _ => r0
  | [] => ""%string
  end.

(** What a delivered anomaly callback writes, if it commits: the outcome
    stored for the record its token resolves to. *)
Definition callback_effect (requestId : uint256) (cleartexts proof : bytes)
    (w : World) : option DecryptedEvent :=
  let dataId := sload (requestToDataId (storage w)) requestId in
  if dataId =? 0 then None
  else if isHandled (sload (decryptedEvents (storage w)) dataId) then None
  else if negb (checkSignatures (oracle w) requestId cleartexts proof) then None
  else match abi_decode_strings cleartexts with
       | None => None
       | Some results => Some (mkDecryptedEvent (first_result results) true)
       end.

(** [n] deliveries of the same alert callback, one after the other. *)
Definition redeliver (n : nat) (ctx : Ctx) (requestId : uint256)
    (cleartexts proof : bytes) : list (Ctx * Call) :=
  replicate n (ctx, HandleAlertCleartext requestId cleartexts proof).

End Scenarios.

(** ** The ledger as a transition system *)

Section Ledger.
Context `{F : FHEVM}.

(** The request id the library hands to [requestAlertDecryption alertId] in
    world [w]. *)
Definition alertToken (alertId : uint256) (w : World) : uint256 :=
  let a := sload (encryptedAlerts (storage w)) alertId in
  fst (requestDecryption (oracle w) [toBytes32 (encryptedAlertPayload a)]
         handleAlertCleartext_selector).

(** The tokens a transaction obtains through [requestAlertDecryption]. *)
Definition issued_alert (ctx : Ctx) (c : Call) (w : World) : list uint256 :=
  match c with
  | RequestAlertDecryption a =>
      match requestAlertDecryption ctx a w with
      | Ok _ => [alertToken a w]
      | Revert _ => []
      end
  | _ => []
  end.

Fixpoint issued_alert_tokens (txs : list (Ctx * Call)) (w : World) : list uint256 :=
  match txs with
  | [] => []
  | (ctx, c) :: rest => issued_alert ctx c w ++ issued_alert_tokens rest (transact ctx c w)
  end.

(** A batch of alert submissions, each with its own context. *)
Definition alert_submissions (subs : list (Ctx * euint32)) : list (Ctx * Call) :=
  map (fun sub => (sub.1, SubmitEncryptedAlert sub.2)) subs.

(** The calls of the alert path. *)
Definition alert_side (c : Call) : bool :=
  match c with
  | SubmitEncryptedAlert _ | RequestAlertDecryption _ | HandleAlertCleartext _ _ _ => true
  | _ => false
  end.

Definition is_submission (e : Event) : bool :=
  match e with
  | SensorDataSubmitted _ _ => true
  | _ => false
  end.

Definition is_detection (k : uint256) (e : Event) : bool :=
  match e with
  | AnomalyDetected id => id =? k
  | _ => false
  end.

(** How many [SensorDataSubmitted] events, and how many [AnomalyDetected k]
    events, a log holds. *)
Definition submission_count (l : list Event) : nat :=
  length (List.filter is_submission l).
Definition detections (k : uint256) (l : list Event) : nat :=
  length (List.filter (is_detection k) l).

(** The id an event carries lies in the range its counter has handed out. *)
Definition event_in_range (s : Storage) (e : Event) : Prop :=
  match e with
  | SensorDataSubmitted id _ | AnomalyDetectionRequested id | AnomalyDetected id =>
      1 <= id <= sensorDataCount s
  | EncryptedAlertSubmitted id _ | AlertDecryptionRequested id | AlertDecrypted id =>
      1 <= id <= alertCount s
  end.

(** What a committed transaction does to the world, entry point by entry
    point, with the guards it has passed. *)
Inductive Commit (w : World) : World -> Prop :=
| commit_record (a s ts : uint256) :
    sensorDataCount (storage w) + 1 <= max_uint256 ->
    let newId := sensorDataCount (storage w) + 1 in
    Commit w (mkWorld
      (mkStorage newId (alertCount (storage w))
         (<[newId := mkSensorData newId a s ts]> (sensorDatas (storage w)))
         (encryptedAlerts (storage w))
         (<[newId := mkDecryptedEvent "" false]> (decryptedEvents (storage w)))
         (requestToDataId (storage w)) (requestToAlertId (storage w)))
      (oracle w) (logs w ++ [SensorDataSubmitted newId ts]))
| commit_request (dataId reqId : uint256) (o : Oracle) :
    sd_id (sload (sensorDatas (storage w)) dataId) <> 0 ->
    requestDecryption (oracle w)
      [toBytes32 (encryptedActivityVector (sload (sensorDatas (storage w)) dataId));
       toBytes32 (encryptedSleepVector (sload (sensorDatas (storage w)) dataId))]
      handleAnomalyResult_selector = (reqId, o) ->
    Commit w (mkWorld
      (set_requestToDataId (<[reqId := dataId]> (requestToDataId (storage w)))
         (storage w))
      o (logs w ++ [AnomalyDetectionRequested dataId]))
| commit_result (requestId : uint256) (text : string) :
    let dataId := sload (requestToDataId (storage w)) requestId in
    dataId <> 0 ->
    isHandled (sload (decryptedEvents (storage w)) dataId) = false ->
    Commit w (mkWorld
      (set_decryptedEvents
         (<[dataId := mkDecryptedEvent text true]> (decryptedEvents (storage w)))
         (storage w))
      (oracle w) (logs w ++ [AnomalyDetected dataId]))
| commit_alert (payload ts : uint256) :
    alertCount (storage w) + 1 <= max_uint256 ->
    let newId := alertCount (storage w) + 1 in
    Commit w (mkWorld
      (set_encryptedAlerts
         (<[newId := mkAlert newId payload ts]> (encryptedAlerts (storage w)))
         (set_alertCount newId (storage w)))
      (oracle w) (logs w ++ [EncryptedAlertSubmitted newId ts]))
| commit_alert_request (alertId reqId : uint256) (o : Oracle) :
    al_id (sload (encryptedAlerts (storage w)) alertId) <> 0 ->
    requestDecryption (oracle w)
      [toBytes32 (encryptedAlertPayload (sload (encryptedAlerts (storage w)) alertId))]
      handleAlertCleartext_selector = (reqId, o) ->
    Commit w (mkWorld
      (set_requestToAlertId (<[reqId := alertId]> (requestToAlertId (storage w)))
         (storage w))
      o (logs w ++ [AlertDecryptionRequested alertId]))
| commit_alert_result (requestId : uint256) :
    sload (requestToAlertId (storage w)) requestId <> 0 ->
    Commit w (emit (AlertDecrypted (sload (requestToAlertId (storage w)) requestId)) w).

(** What every reachable world satisfies on the alert side and in its log. *)
Record LedgerInv (w : World) : Prop := mkLedgerInv {
  linv_alert_count : alertCount (storage w) <= max_uint256;
  linv_alert_in : forall k, 1 <= k <= alertCount (storage w) ->
      al_id (sload (encryptedAlerts (storage w)) k) = k;
  linv_alert_out : forall k, k = 0 \/ alertCount (storage w) < k ->
      encryptedAlerts (storage w) !! k = None;
  linv_alert_request : forall t a, requestToAlertId (storage w) !! t = Some a ->
      1 <= a <= alertCount (storage w);
  linv_summary : forall k,
      isHandled (sload (decryptedEvents (storage w)) k) = false ->
      summary (sload (decryptedEvents (storage w)) k) = ""%string;
  linv_detected : forall k,
      detections k (logs w)
      = if isHandled (sload (decryptedEvents (storage w)) k) then 1%nat else 0%nat;
  linv_submitted : forall k ts,
      SensorDataSubmitted k ts ∈ logs w <->
      1 <= k <= sensorDataCount (storage w)
      /\ sd_timestamp (sload (sensorDatas (storage w)) k) = ts;
  linv_submission_count :
      N.of_nat (submission_count (logs w)) = sensorDataCount (storage w);
  linv_token_requested : forall t d, requestToDataId (storage w) !! t = Some d ->
      AnomalyDetectionRequested d ∈ logs w;
  linv_handled_requested : forall k,
      isHandled (sload (decryptedEvents (storage w)) k) = true ->
      AnomalyDetectionRequested k ∈ logs w;
  linv_events : forall e, e ∈ logs w -> event_in_range (storage w) e
}.

(** [needs e e']: [e'] is a notification that [e] presupposes, for the same
    id: a request presupposes the submission, a result the request. *)
Definition needs (e e' : Event) : bool :=
  match e, e' with
  | AnomalyDetectionRequested k, SensorDataSubmitted k' _ => k' =? k
  | AnomalyDetected k, AnomalyDetectionRequested k' => k' =? k
  | AlertDecryptionRequested a, EncryptedAlertSubmitted a' _ => a' =? a
  | AlertDecrypted a, AlertDecryptionRequested a' => a' =? a
  | _, _ => false
  end.

Definition is_intake (e : Event) : bool :=
  match e with
  | SensorDataSubmitted _ _ | EncryptedAlertSubmitted _ _ => true
  | _ => false
  end.

(** In an ordered log every notification other than a submission comes
    after the notification it presupposes. *)
Definition log_ordered (l : list Event) : Prop :=
  forall l1 e l2, l = l1 ++ e :: l2 -> is_intake e = false ->
    exists e', e' ∈ l1 /\ needs e e' = true.

Record OrderInv (w : World) : Prop := mkOrderInv {
  oinv_alert_submitted : forall k, 1 <= k <= alertCount (storage w) ->
      exists ts, EncryptedAlertSubmitted k ts ∈ logs w;
  oinv_alert_token : forall t a, requestToAlertId (storage w) !! t = Some a ->
      AlertDecryptionRequested a ∈ logs w;
  oinv_ordered : log_ordered (logs w)
}.

End Ledger.

(** ** A library that can refuse a request

    [FHE.requestDecryption] is an unguarded library call: when the library
    reverts (its access-control list does not allow the handles to be
    decrypted, say), the transaction reverts with the library's error.  The
    entry points above describe the runs in which every request is accepted;
    here the two request functions are given again with the library's
    verdict, [accepts], as a parameter.  The other four entry points make no
    call that depends on it. *)

Section Refusal.
Context `{F : FHEVM}.
Variable accepts : Oracle -> list bytes32 -> selector -> bool.

(** How a transaction ends: committed, reverted by the contract with one of
    its own failures, or reverted inside the library call. *)
Inductive receipt : Type :=
| Committed (w : World)
| Reverted (f : failure)
| LibraryReverted.

Definition try_requestDecryption (o : Oracle) (ciphertexts : list bytes32)
    (callback : selector) : option (uint256 * Oracle) :=
  if accepts o ciphertexts callback
  then Some (requestDecryption o ciphertexts callback)
  else None.

(** [requestAnomalyDetection]; the placeholder modifier runs the body. *)
Definition requestAnomalyDetection_lib (ctx : Ctx) (dataId : uint256) (w : World)
    : receipt :=
  let dataRecord := sload (sensorDatas (storage w)) dataId in
  if sd_id dataRecord =? 0 then Reverted DataNotFound
  else
    let ciphertexts := [toBytes32 (encryptedActivityVector dataRecord);
                        toBytes32 (encryptedSleepVector dataRecord)] in
    match try_requestDecryption (oracle w) ciphertexts handleAnomalyResult_selector with
    | None => LibraryReverted
    | Some (reqId, o) =>
        let s1 := set_requestToDataId
                    (<[reqId := dataId]> (requestToDataId (storage w))) (storage w) in
        Committed (emit (AnomalyDetectionRequested dataId) (mkWorld s1 o (logs w)))
    end.

(** [requestAlertDecryption]; the placeholder modifier runs the body. *)
Definition requestAlertDecryption_lib (ctx : Ctx) (alertId : uint256) (w : World)
    : receipt :=
  let a := sload (encryptedAlerts (storage w)) alertId in
  if al_id a =? 0 then Reverted AlertNotFound
  else
    let ciphertexts := [toBytes32 (encryptedAlertPayload a)] in
    match try_requestDecryption (oracle w) ciphertexts handleAlertCleartext_selector with
    | None => LibraryReverted
    | Some (reqId, o) =>
        let s1 := set_requestToAlertId
                    (<[reqId := alertId]> (requestToAlertId (storage w))) (storage w) in
        Committed (emit (AlertDecryptionRequested alertId) (mkWorld s1 o (logs w)))
    end.

Definition of_result (r : result World) : receipt :=
  match r with
  | Ok w => Committed w
  | Revert f => Reverted f
  end.

Definition call_lib (ctx : Ctx) (c : Call) (w : World) : receipt :=
  match c with
  | RequestAnomalyDetection d => requestAnomalyDetection_lib ctx d w
  | RequestAlertDecryption a => requestAlertDecryption_lib ctx a w
  | _ => of_result (call ctx c w)
  end.

Definition transact_lib (ctx : Ctx) (c : Call) (w : World) : World :=
  match call_lib ctx c w with
  | Committed w' => w'
  | _ => w
  end.

Fixpoint run_lib (txs : list (Ctx * Call)) (w : World) : World :=
  match txs with
  | [] => w
  | (ctx, c) :: rest => run_lib rest (transact_lib ctx c w)
  end.

Definition reachable_lib (w : World) : Prop :=
  exists o txs, run_lib txs (genesis o) = w.

End Refusal.

Section DeclaredEvents.
Context `{F : FHEVM}.

(** The event an entry point emits as its last statement, with the id it
    acts on in world [w]. *)
Definition declared_event (ctx : Ctx) (c : Call) (w : World) : Event :=
  match c with
  | SubmitEncryptedSensorData _ _ =>
      SensorDataSubmitted (sensorDataCount (storage w) + 1) (block_timestamp ctx)
  | RequestAnomalyDetection d => AnomalyDetectionRequested d
  | HandleAnomalyResult t _ _ =>
      AnomalyDetected (sload (requestToDataId (storage w)) t)
  | SubmitEncryptedAlert _ =>
      EncryptedAlertSubmitted (alertCount (storage w) + 1) (block_timestamp ctx)
  | RequestAlertDecryption a => AlertDecryptionRequested a
  | HandleAlertCleartext t _ _ =>
      AlertDecrypted (sload (requestToAlertId (storage w)) t)
  end.

End DeclaredEvents.

(** Reference verdicts for the library: an access-control list of the
    handles the contract may have decrypted; and a reference library whose
    request ids do not advance. *)
Module Acl.

Definition gate (allowed : list bytes32)
    : N -> list bytes32 -> selector -> bool :=
  fun _ ciphertexts _ => forallb (fun h => bool_decide (h ∈ allowed)) ciphertexts.

(** Nothing has been allowed: every request is refused. *)
Definition closed : N -> list bytes32 -> selector -> bool := gate [].
(** The handles of record 1 of the worked scenario have been allowed. *)
Definition opened : N -> list bytes32 -> selector -> bool := gate [11; 22].

Definition w_stored : @World Reference.fhevm :=
  run_lib (F := Reference.fhevm) closed [Reference.submit_tx]
    (genesis (F := Reference.fhevm) 0).

Definition w_handled_then_stored : @World Reference.fhevm :=
  run_lib (F := Reference.fhevm) opened
    [Reference.submit_tx; Reference.request_tx; Reference.deliver_tx;
     (Reference.ctx0, SubmitEncryptedSensorData 33 44)]
    (genesis (F := Reference.fhevm) 0).




End Acl.

(** ** The dashboard statistics

    The record statistics the web client ([App.tsx]) derives from the list of
    records it has loaded, and the two figures of the legend of its chart. *)

Module Dashboard.

Inductive RecordType : Type := activity | sleep | alert.
Inductive Status : Type := normal | abnormal.

Global Instance RecordType_eq_dec : EqDecision RecordType.
Proof. solve_decision. Defined.
Global Instance Status_eq_dec : EqDecision Status.
Proof. solve_decision. Defined.

Record HealthRecord : Type := mkHealthRecord {
  id : string;
  type : RecordType;
  timestamp : N;
  encryptedData : string;
  status : Status;
  fheProcessed : bool
}.

Definition totalRecords (records : list HealthRecord) : nat := length records.
Definition abnormalCount (records : list HealthRecord) : nat :=
  length (filter (fun r => status r = abnormal) records).
Definition activityCount (records : list HealthRecord) : nat :=
  length (filter (fun r => type r = activity) records).
Definition sleepCount (records : list HealthRecord) : nat :=
  length (filter (fun r => type r = sleep) records).
Definition alertCount (records : list HealthRecord) : nat :=
  length (filter (fun r => type r = alert) records).

(** [renderPieChart]: [total = records.length || 1], and the legend shows
    [total - abnormalCount] normal records and [abnormalCount] abnormal
    ones. *)
Definition pie_total (records : list HealthRecord) : Z :=
  if (length records =? 0)%nat then 1%Z else Z.of_nat (length records).
Definition legend_normal (records : list HealthRecord) : Z :=
  (pie_total records - Z.of_nat (abnormalCount records))%Z.
Definition legend_abnormal (records : list HealthRecord) : Z :=
  Z.of_nat (abnormalCount records).

End Dashboard.

(** * Properties *)

Section Basics.
Context `{F : FHEVM}.

Lemma sload_insert_eq {V} `{Zero V} (m : gmap N V) k v :
  sload (<[k := v]> m) k = v.
Proof. unfold sload. by rewrite lookup_insert_eq. Qed.

Lemma sload_insert_ne {V} `{Zero V} (m : gmap N V) k k' v :
  k <> k' -> sload (<[k := v]> m) k' = sload m k'.
Proof. intros. unfold sload. by rewrite lookup_insert_ne. Qed.

Lemma sload_None {V} `{Zero V} (m : gmap N V) k :
  m !! k = None -> sload m k = zero.
Proof. intros E. unfold sload. by rewrite E. Qed.

Lemma transact_ok ctx c w w' : call ctx c w = Ok w' -> transact ctx c w = w'.
Proof. unfold transact. by intros ->. Qed.

Lemma transact_revert ctx c w f : call ctx c w = Revert f -> transact ctx c w = w.
Proof. unfold transact. by intros ->. Qed.

Lemma run_app txs1 txs2 w : run (txs1 ++ txs2) w = run txs2 (run txs1 w).
Proof.
  revert w. induction txs1 as [|[ctx c] txs1 IH]; intros w; simpl; [done|].
  apply IH.
Qed.

Lemma checked_add_ok a b : a + b <= max_uint256 -> checked_add a b = Ok (a + b).
Proof. intros Hle. unfold checked_add. by rewrite (proj2 (N.leb_le _ _) Hle). Qed.

Lemma checked_add_inv a b c : checked_add a b = Ok c -> c = a + b /\ c <= max_uint256.
Proof.
  unfold checked_add. destruct (N.leb_spec (a + b) max_uint256); [|done].
  intros [= <-]. done.
Qed.

(** *** What each entry point does, case by case *)

Lemma submitEncryptedSensorData_ok ctx a s w :
  sensorDataCount (storage w) + 1 <= max_uint256 ->
  let newId := sensorDataCount (storage w) + 1 in
  submitEncryptedSensorData ctx a s w =
    Ok (mkWorld
          (mkStorage newId (alertCount (storage w))
             (<[newId := mkSensorData newId a s (block_timestamp ctx)]>
                (sensorDatas (storage w)))
             (encryptedAlerts (storage w))
             (<[newId := mkDecryptedEvent "" false]> (decryptedEvents (storage w)))
             (requestToDataId (storage w)) (requestToAlertId (storage w)))
          (oracle w)
          (logs w ++ [SensorDataSubmitted newId (block_timestamp ctx)])).
Proof.
  intros Hle. unfold submitEncryptedSensorData. by rewrite checked_add_ok.
Qed.

Lemma submitEncryptedSensorData_overflow ctx a s w :
  max_uint256 < sensorDataCount (storage w) + 1 ->
  submitEncryptedSensorData ctx a s w = Revert Overflow.
Proof.
  intros Hlt. unfold submitEncryptedSensorData, checked_add.
  by rewrite (proj2 (N.leb_gt _ _) Hlt).
Qed.

Lemma handleAnomalyResult_cases ctx t cl p w :
  let dataId := sload (requestToDataId (storage w)) t in
  handleAnomalyResult ctx t cl p w =
    if dataId =? 0 then Revert InvalidRequest
    else if isHandled (sload (decryptedEvents (storage w)) dataId)
    then Revert AlreadyHandled
    else if negb (checkSignatures (oracle w) t cl p) then Revert InvalidProof
    else match abi_decode_strings cl with
         | None => Revert DecodeFailure
         | Some results =>
             Ok (mkWorld
                   (set_decryptedEvents
                      (<[dataId := mkDecryptedEvent (first_result results) true]>
                         (decryptedEvents (storage w))) (storage w))
                   (oracle w) (logs w ++ [AnomalyDetected dataId]))
         end.
Proof.
  intros dataId. unfold handleAnomalyResult. fold dataId.
  destruct (dataId =? 0); simpl; [done|].
  destruct (isHandled _); simpl; [done|].
  destruct (checkSignatures _ _ _ _); simpl; [|done].
  unfold decode_strings. destruct (abi_decode_strings cl) as [results|]; simpl; [|done].
  by destruct results.
Qed.

Lemma handleAlertCleartext_cases ctx t cl p w :
  let alertId := sload (requestToAlertId (storage w)) t in
  handleAlertCleartext ctx t cl p w =
    if alertId =? 0 then Revert InvalidRequest
    else if negb (checkSignatures (oracle w) t cl p) then Revert InvalidProof
    else match abi_decode_string cl with
         | None => Revert DecodeFailure
         | Some _ => Ok (emit (AlertDecrypted alertId) w)
         end.
Proof.
  intros alertId. unfold handleAlertCleartext. fold alertId.
  destruct (alertId =? 0); simpl; [done|].
  destruct (checkSignatures _ _ _ _); simpl; [|done].
  unfold decode_string. by destruct (abi_decode_string cl).
Qed.

Lemma requestAnomalyDetection_cases ctx dataId w :
  let dataRecord := sload (sensorDatas (storage w)) dataId in
  requestAnomalyDetection ctx dataId w =
    if sd_id dataRecord =? 0 then Revert DataNotFound
    else
      let r := requestDecryption (oracle w)
                 [toBytes32 (encryptedActivityVector dataRecord);
                  toBytes32 (encryptedSleepVector dataRecord)]
                 handleAnomalyResult_selector in
      Ok (mkWorld
            (set_requestToDataId
               (<[anomalyToken dataId w := dataId]> (requestToDataId (storage w)))
               (storage w))
            r.2 (logs w ++ [AnomalyDetectionRequested dataId])).
Proof.
  intros dataRecord. unfold requestAnomalyDetection, onlySource, anomalyToken.
  fold dataRecord.
  destruct (sd_id dataRecord =? 0); simpl; [done|].
  by destruct (requestDecryption _ _ _) as [reqId o].
Qed.

End Basics.

(** ** The invariant of reachable worlds *)

Section Invariant.
Context `{F : FHEVM}.

Lemma Inv_genesis o : Inv [] [] (genesis o).
Proof.
  split; simpl.
  - done.
  - intros k Hk. lia.
  - done.
  - done.
  - done.
  - intros k. split; [by intros ?%elem_of_nil | lia].
Qed.

Lemma Inv_revert toks ids w : Inv toks ids w -> Inv (toks ++ []) (ids ++ []) w.
Proof. by rewrite !app_nil_r. Qed.

(** A stored record lies in the dense range. *)
Lemma Inv_record_range toks ids w k :
  Inv toks ids w -> sd_id (sload (sensorDatas (storage w)) k) <> 0 ->
  1 <= k <= sensorDataCount (storage w).
Proof.
  intros HI Hid.
  destruct (decide (k = 0 \/ sensorDataCount (storage w) < k)) as [Hout|Hin]; [|lia].
  exfalso. apply Hid. by rewrite (sload_None _ _ (inv_data_out _ _ _ HI k Hout)).
Qed.

(** A registered token resolves into the dense range and was issued. *)
Lemma Inv_token_range toks ids w t :
  Inv toks ids w -> sload (requestToDataId (storage w)) t <> 0 ->
  1 <= sload (requestToDataId (storage w)) t <= sensorDataCount (storage w)
  /\ t ∈ toks.
Proof.
  intros HI. unfold sload.
  destruct (requestToDataId (storage w) !! t) as [d|] eqn:E; simpl; [|done].
  intros _. by apply (inv_request _ _ _ HI).
Qed.

Lemma Inv_submit toks ids w ctx a s :
  Inv toks ids w ->
  Inv (toks ++ issued ctx (SubmitEncryptedSensorData a s) w)
      (ids ++ assigned ctx (SubmitEncryptedSensorData a s) w)
      (transact ctx (SubmitEncryptedSensorData a s) w).
Proof.
  intros HI. unfold transact, assigned, issued, call.
  destruct (N.le_gt_cases (sensorDataCount (storage w) + 1) max_uint256) as [Hle|Hgt].
  2:{ rewrite submitEncryptedSensorData_overflow by done. by apply Inv_revert. }
  rewrite submitEncryptedSensorData_ok by done. rewrite app_nil_r.
  destruct HI as [Hc Hin Hout Hev Hreq Hids].
  split; simpl.
  - done.
  - intros k Hk.
    destruct (decide (k = sensorDataCount (storage w) + 1)) as [->|Hne].
    + by rewrite sload_insert_eq.
    + rewrite sload_insert_ne by done. apply Hin. lia.
  - intros k Hk. rewrite lookup_insert_ne by lia. apply Hout. lia.
  - intros k Hk. rewrite lookup_insert_ne by lia. apply Hev. lia.
  - intros t d Htd. destruct (Hreq t d Htd) as [Hd Ht]. split; [lia|done].
  - intros k. rewrite elem_of_app, list_elem_of_singleton, Hids. lia.
Qed.

Lemma Inv_request toks ids w ctx d :
  Inv toks ids w ->
  Inv (toks ++ issued ctx (RequestAnomalyDetection d) w)
      (ids ++ assigned ctx (RequestAnomalyDetection d) w)
      (transact ctx (RequestAnomalyDetection d) w).
Proof.
  intros HI. unfold transact, assigned, issued, call.
  rewrite requestAnomalyDetection_cases. cbv zeta.
  destruct (N.eqb_spec (sd_id (sload (sensorDatas (storage w)) d)) 0) as [Hz|Hnz].
  { by apply Inv_revert. }
  pose proof (Inv_record_range _ _ _ _ HI Hnz) as Hd.
  destruct HI as [Hc Hin Hout Hev Hreq Hids].
  rewrite app_nil_r. split; simpl; try done.
  intros t d' Htd.
  destruct (decide (anomalyToken d w = t)) as [<-|Hne].
  - rewrite lookup_insert_eq in Htd. injection Htd as <-.
    split; [done|]. rewrite elem_of_app, list_elem_of_singleton. by right.
  - rewrite lookup_insert_ne in Htd by done.
    destruct (Hreq t d' Htd). split; [done|]. rewrite elem_of_app. by left.
Qed.

Lemma Inv_handle toks ids w ctx t cl p :
  Inv toks ids w ->
  Inv (toks ++ issued ctx (HandleAnomalyResult t cl p) w)
      (ids ++ assigned ctx (HandleAnomalyResult t cl p) w)
      (transact ctx (HandleAnomalyResult t cl p) w).
Proof.
  intros HI. unfold transact, assigned, issued, call.
  rewrite handleAnomalyResult_cases. cbv zeta.
  destruct (N.eqb_spec (sload (requestToDataId (storage w)) t) 0) as [Hz|Hnz].
  { by apply Inv_revert. }
  destruct (isHandled _); [by apply Inv_revert|].
  destruct (checkSignatures _ _ _ _); simpl; [|by apply Inv_revert].
  destruct (abi_decode_strings cl) as [results|]; [|by apply Inv_revert].
  destruct (Inv_token_range _ _ _ _ HI Hnz) as [Hd _].
  destruct HI as [Hc Hin Hout Hev Hreq Hids].
  rewrite !app_nil_r. split; simpl; try done.
  intros k Hk. rewrite lookup_insert_ne by lia. by apply Hev.
Qed.

Lemma Inv_alert_side toks ids w ctx c :
  (exists p, c = SubmitEncryptedAlert p) \/ (exists a, c = RequestAlertDecryption a)
  \/ (exists t cl p, c = HandleAlertCleartext t cl p) ->
  Inv toks ids w ->
  Inv (toks ++ issued ctx c w) (ids ++ assigned ctx c w) (transact ctx c w).
Proof.
  intros Hc HI.
  assert (Hframe : sensorDataCount (storage (transact ctx c w)) = sensorDataCount (storage w)
          /\ sensorDatas (storage (transact ctx c w)) = sensorDatas (storage w)
          /\ decryptedEvents (storage (transact ctx c w)) = decryptedEvents (storage w)
          /\ requestToDataId (storage (transact ctx c w)) = requestToDataId (storage w)
          /\ issued ctx c w = [] /\ assigned ctx c w = []).
  { destruct Hc as [[p ->]|[[a ->]|(t & cl & p & ->)]]; unfold transact, call; simpl.
    - unfold submitEncryptedAlert, checked_add.
      by destruct (_ <=? _).
    - unfold requestAlertDecryption, onlySource.
      destruct (negb _); simpl; [|done].
      by destruct (requestDecryption _ _ _).
    - rewrite handleAlertCleartext_cases. cbv zeta.
      destruct (_ =? 0); [done|]. destruct (negb _); [done|].
      by destruct (abi_decode_string cl). }
  destruct Hframe as (E1 & E2 & E3 & E4 & -> & ->). rewrite !app_nil_r.
  destruct HI as [Hcnt Hin Hout Hev Hreq Hids].
  split; rewrite ?E1, ?E2, ?E3, ?E4; done.
Qed.

Lemma Inv_step toks ids w ctx c :
  Inv toks ids w ->
  Inv (toks ++ issued ctx c w) (ids ++ assigned ctx c w) (transact ctx c w).
Proof.
  destruct c.
  - apply Inv_submit.
  - apply Inv_request.
  - apply Inv_handle.
  - apply Inv_alert_side. left. eauto.
  - apply Inv_alert_side. right. left. eauto.
  - apply Inv_alert_side. right. right. eauto.
Qed.

Lemma Inv_run txs : forall toks ids w,
  Inv toks ids w ->
  Inv (toks ++ issued_tokens txs w) (ids ++ assigned_ids txs w) (run txs w).
Proof.
  induction txs as [|[ctx c] txs IH]; intros toks ids w HI; simpl.
  - by rewrite !app_nil_r.
  - rewrite !app_assoc. apply IH. by apply Inv_step.
Qed.

Lemma reachable_Inv w :
  reachable w -> exists toks ids, Inv toks ids w.
Proof.
  intros (o & txs & <-). eexists _, _.
  apply (Inv_run txs [] [] (genesis o)). apply Inv_genesis.
Qed.

Lemma reachable_genesis o : reachable (genesis o).
Proof. by exists o, []. Qed.

Lemma reachable_run txs w : reachable w -> reachable (run txs w).
Proof.
  intros (o & txs0 & <-). exists o, (txs0 ++ txs). apply run_app.
Qed.

Lemma reachable_transact ctx c w : reachable w -> reachable (transact ctx c w).
Proof. apply (reachable_run [(ctx, c)]). Qed.

End Invariant.

(** ** The record callback: verification and idempotence *)

Section RecordCallback.
Context `{F : FHEVM}.

Lemma getDecryptedEvent_handled R w :
  (getDecryptedEvent R w).2 = true ->
  isHandled (sload (decryptedEvents (storage w)) R) = true.
Proof. done. Qed.

(** A committed anomaly callback behaves as [callback_effect] says. *)
Lemma transact_handle ctx t cl p w :
  transact ctx (HandleAnomalyResult t cl p) w =
    match callback_effect t cl p w with
    | Some e =>
        let dataId := sload (requestToDataId (storage w)) t in
        mkWorld (set_decryptedEvents
                   (<[dataId := e]> (decryptedEvents (storage w))) (storage w))
                (oracle w) (logs w ++ [AnomalyDetected dataId])
    | None => w
    end.
Proof.
  unfold transact, call, callback_effect. rewrite handleAnomalyResult_cases. cbv zeta.
  destruct (_ =? 0); [done|]. destruct (isHandled _); [done|].
  destruct (negb _); [done|]. by destruct (abi_decode_strings cl).
Qed.

(** One transaction never touches the outcome of a handled record. *)
Lemma handled_preserved_step toks ids w R ctx c :
  Inv toks ids w ->
  (getDecryptedEvent R w).2 = true ->
  getDecryptedEvent R (transact ctx c w) = getDecryptedEvent R w.
Proof.
  intros HI HR%getDecryptedEvent_handled.
  assert (HRin : R <> 0 /\ R <= sensorDataCount (storage w)).
  { destruct (decide (R = 0 \/ sensorDataCount (storage w) < R)) as [Hout|?]; [|lia].
    rewrite (sload_None _ _ (inv_event_out _ _ _ HI R Hout)) in HR. done. }
  destruct c as [a s|d|t cl p|pl|al|t cl p].
  - unfold transact, call.
    destruct (N.le_gt_cases (sensorDataCount (storage w) + 1) max_uint256) as [Hle|Hgt].
    + rewrite submitEncryptedSensorData_ok by done.
      unfold getDecryptedEvent. simpl. rewrite sload_insert_ne by lia. done.
    + by rewrite submitEncryptedSensorData_overflow.
  - unfold transact, call. rewrite requestAnomalyDetection_cases. cbv zeta.
    by destruct (_ =? 0).
  - rewrite transact_handle. unfold callback_effect.
    destruct (N.eqb_spec (sload (requestToDataId (storage w)) t) 0); [done|].
    destruct (isHandled (sload (decryptedEvents (storage w))
                (sload (requestToDataId (storage w)) t))) eqn:Hh; [done|].
    destruct (negb _); [done|]. destruct (abi_decode_strings cl); [|done].
    unfold getDecryptedEvent. simpl. rewrite sload_insert_ne; [done|].
    intros E. rewrite E in Hh. congruence.
  - unfold transact, call, submitEncryptedAlert, checked_add.
    by destruct (_ <=? _).
  - unfold transact, call, requestAlertDecryption, onlySource.
    destruct (negb _); simpl; [|done]. by destruct (requestDecryption _ _ _).
  - unfold transact, call. rewrite handleAlertCleartext_cases. cbv zeta.
    destruct (_ =? 0); [done|]. destruct (negb _); [done|].
    by destruct (abi_decode_string cl).
Qed.

Lemma handled_preserved_run txs : forall toks ids w R,
  Inv toks ids w ->
  (getDecryptedEvent R w).2 = true ->
  getDecryptedEvent R (run txs w) = getDecryptedEvent R w.
Proof.
  induction txs as [|[ctx c] txs IH]; intros toks ids w R HI HR; simpl; [done|].
  pose proof (handled_preserved_step _ _ _ _ ctx c HI HR) as Hstep.
  rewrite (IH _ _ _ R (Inv_step _ _ _ ctx c HI)); [done|]. by rewrite Hstep.
Qed.

(** C1 (as amended).  A callback whose proof fails verification aborts and
    leaves the world as it was, whatever the cleartexts are: the failure is
    [InvalidRequest] when the token is unknown, [AlreadyHandled] when the
    record it resolves to is already handled, and [InvalidProof] otherwise;
    in every case [getDecryptedEvent] returns for every id what it returned
    before the call. *)
Theorem failed_proof_aborts_unchanged w ctx t cl p :
  checkSignatures (oracle w) t cl p = false ->
  let dataId := sload (requestToDataId (storage w)) t in
  handleAnomalyResult ctx t cl p w =
    Revert (if dataId =? 0 then InvalidRequest
            else if (getDecryptedEvent dataId w).2 then AlreadyHandled
            else InvalidProof)
  /\ transact ctx (HandleAnomalyResult t cl p) w = w
  /\ forall k, getDecryptedEvent k (transact ctx (HandleAnomalyResult t cl p) w)
               = getDecryptedEvent k w.
Proof.
  intros Hbad dataId.
  assert (Hres : handleAnomalyResult ctx t cl p w =
    Revert (if dataId =? 0 then InvalidRequest
            else if (getDecryptedEvent dataId w).2 then AlreadyHandled
            else InvalidProof)).
  { rewrite handleAnomalyResult_cases. cbv zeta. fold dataId. rewrite Hbad.
    unfold getDecryptedEvent. simpl.
    destruct (dataId =? 0); [done|]. by destruct (isHandled _). }
  assert (Hsame : transact ctx (HandleAnomalyResult t cl p) w = w).
  { apply transact_revert with (f := if dataId =? 0 then InvalidRequest
            else if (getDecryptedEvent dataId w).2 then AlreadyHandled
            else InvalidProof). exact Hres. }
  split; [exact Hres|]. split; [exact Hsame|]. intros k. by rewrite Hsame.
Qed.

(** C2.  The handled flag is terminal.  In a reachable world no transaction
    changes the outcome of a handled record, so the flag is never reset and
    goes from false to true at most once; and once a callback for record [R]
    has committed, then after any further transactions every callback whose
    token resolves to [R] fails with [AlreadyHandled] and [getDecryptedEvent R]
    still returns what that first callback wrote. *)
Theorem handled_is_terminal w :
  reachable w ->
  (forall R ctx c, (getDecryptedEvent R w).2 = true ->
     getDecryptedEvent R (transact ctx c w) = getDecryptedEvent R w)
  /\ (forall ctx t cl p w1,
        handleAnomalyResult ctx t cl p w = Ok w1 ->
        let R := sload (requestToDataId (storage w)) t in
        (getDecryptedEvent R w).2 = false
        /\ (getDecryptedEvent R w1).2 = true
        /\ forall txs,
             getDecryptedEvent R (run txs w1) = getDecryptedEvent R w1
             /\ forall ctx' t' cl' p',
                  sload (requestToDataId (storage (run txs w1))) t' = R ->
                  handleAnomalyResult ctx' t' cl' p' (run txs w1)
                  = Revert AlreadyHandled).
Proof.
  intros Hreach. destruct (reachable_Inv _ Hreach) as (toks & ids & HI). split.
  - intros R ctx c HR. by apply (handled_preserved_step toks ids).
  - intros ctx t cl p w1 Hok R.
    pose proof (transact_ok _ (HandleAnomalyResult t cl p) _ _ Hok) as Hw1.
    pose proof (Inv_step _ _ _ ctx (HandleAnomalyResult t cl p) HI) as HI1.
    rewrite Hw1 in HI1.
    rewrite handleAnomalyResult_cases in Hok. cbv zeta in Hok. fold R in Hok.
    destruct (N.eqb_spec R 0) as [|HR0]; [done|].
    destruct (isHandled (sload (decryptedEvents (storage w)) R)) eqn:Hh; [done|].
    destruct (negb _); [done|].
    destruct (abi_decode_strings cl) as [results|]; [|done].
    injection Hok as <-.
    assert (H1 : (getDecryptedEvent R
       (mkWorld (set_decryptedEvents
                   (<[R := mkDecryptedEvent (first_result results) true]>
                      (decryptedEvents (storage w))) (storage w))
                (oracle w) (logs w ++ [AnomalyDetected R]))).2 = true).
    { unfold getDecryptedEvent. simpl. by rewrite sload_insert_eq. }
    split; [exact Hh|]. split; [exact H1|]. intros txs.
    pose proof (handled_preserved_run txs _ _ _ R HI1 H1) as Hkeep.
    split; [exact Hkeep|].
    intros ctx' t' cl' p' Ht'. rewrite handleAnomalyResult_cases. cbv zeta.
    rewrite Ht'. destruct (N.eqb_spec R 0); [done|].
    rewrite <- Hkeep in H1. apply getDecryptedEvent_handled in H1. by rewrite H1.
Qed.

End RecordCallback.

(** *** The record callback on the worked scenario *)

Lemma reachable_w_requested : reachable (F := Reference.fhevm) Reference.w_requested.
Proof. exists 0, [Reference.submit_tx; Reference.request_tx]. reflexivity. Qed.

Lemma reachable_w_handled : reachable (F := Reference.fhevm) Reference.w_handled.
Proof.
  exists 0, [Reference.submit_tx; Reference.request_tx; Reference.deliver_tx].
  reflexivity.
Qed.

(** C1 as stated does not hold: in the world where record 1 has already
    been handled, a callback for its token 0 with well-formed cleartexts and
    a proof that fails verification aborts with [AlreadyHandled], not with
    [InvalidProof]; with the unknown token 5 it aborts with
    [InvalidRequest]. *)
Lemma failed_proof_not_always_InvalidProof :
  reachable (F := Reference.fhevm) Reference.w_handled
  /\ abi_decode_strings (FHEVM := Reference.fhevm) Reference.fall_cleartexts
     = Some ["fall_detected"; "ok"]%string
  /\ checkSignatures (FHEVM := Reference.fhevm) (oracle Reference.w_handled) 0
       Reference.fall_cleartexts [] = false
  /\ handleAnomalyResult (F := Reference.fhevm) Reference.ctx0 0 Reference.fall_cleartexts []
       Reference.w_handled = Revert AlreadyHandled
  /\ checkSignatures (FHEVM := Reference.fhevm) (oracle Reference.w_handled) 5
       Reference.fall_cleartexts [] = false
  /\ handleAnomalyResult (F := Reference.fhevm) Reference.ctx0 5 Reference.fall_cleartexts []
       Reference.w_handled = Revert InvalidRequest.
Proof.
  split; [exact reachable_w_handled|].
  repeat split; vm_compute; reflexivity.
Qed.

(** The amended C1 on the worked scenario: record 1 has an outstanding
    request; a callback with an empty proof aborts with [InvalidProof] and
    the outcome stays [("", false)]. *)
Lemma failed_proof_aborts_unchanged_witness :
  checkSignatures (FHEVM := Reference.fhevm) (oracle Reference.w_requested) 0
    Reference.fall_cleartexts [] = false
  /\ handleAnomalyResult (F := Reference.fhevm) Reference.ctx0 0 Reference.fall_cleartexts []
       Reference.w_requested = Revert InvalidProof
  /\ getDecryptedEvent (F := Reference.fhevm) 1
       (transact (F := Reference.fhevm) Reference.ctx0
          (HandleAnomalyResult 0 Reference.fall_cleartexts []) Reference.w_requested)
     = (""%string, false).
Proof.
  assert (Hbad : checkSignatures (FHEVM := Reference.fhevm) (oracle Reference.w_requested) 0
            Reference.fall_cleartexts [] = false) by (vm_compute; reflexivity).
  destruct (failed_proof_aborts_unchanged (F := Reference.fhevm) Reference.w_requested
              Reference.ctx0 0 Reference.fall_cleartexts [] Hbad) as (H1 & H2 & H3).
  split; [exact Hbad|]. split.
  - rewrite H1. vm_compute. reflexivity.
  - rewrite H3. vm_compute. reflexivity.
Defined.

(** C2 on the worked scenario: after the callback for token 0 has committed,
    a second request for record 1 yields token 1, and the callback for that
    token is refused; the outcome is still the first one. *)
Lemma handled_is_terminal_witness :
  reachable (F := Reference.fhevm) Reference.w_requested
  /\ handleAnomalyResult (F := Reference.fhevm) Reference.ctx0 1 Reference.calm_cleartexts
       (Reference.digest 1 Reference.calm_cleartexts)
       (run (F := Reference.fhevm) [Reference.request_tx] Reference.w_handled)
     = Revert AlreadyHandled
  /\ getDecryptedEvent (F := Reference.fhevm) 1
       (run (F := Reference.fhevm) [Reference.request_tx] Reference.w_handled)
     = ("fall_detected"%string, true).
Proof.
  split; [exact reachable_w_requested|].
  destruct (handled_is_terminal (F := Reference.fhevm) Reference.w_requested reachable_w_requested)
    as [_ H].
  assert (Hok : handleAnomalyResult (F := Reference.fhevm) Reference.ctx0 0 Reference.fall_cleartexts
            (Reference.digest 0 Reference.fall_cleartexts) Reference.w_requested
          = Ok Reference.w_handled) by (vm_compute; reflexivity).
  destruct (H _ _ _ _ _ Hok) as (_ & _ & H').
  destruct (H' [Reference.request_tx]) as [Hkeep Hrej].
  split.
  - apply Hrej. vm_compute. reflexivity.
  - etrans; [exact Hkeep|]. vm_compute. reflexivity.
Defined.

(** ** Intake *)

Section Intake.
Context `{F : FHEVM}.

Lemma submissions_app l1 l2 :
  submissions (l1 ++ l2) = submissions l1 ++ submissions l2.
Proof. unfold submissions. apply map_app. Qed.

(** A batch of submissions that fits below the counter's bound commits
    every one of them and hands out the next ids in order. *)
Lemma run_submissions subs : forall w,
  sensorDataCount (storage w) + N.of_nat (length subs) <= max_uint256 ->
  sensorDataCount (storage (run (submissions subs) w))
    = sensorDataCount (storage w) + N.of_nat (length subs)
  /\ assigned_ids (submissions subs) w
    = map (fun i => sensorDataCount (storage w) + N.of_nat i) (seq 1 (length subs)).
Proof.
  induction subs as [|[ctx [a s]] subs IH]; intros w Hfit.
  - simpl. split; [lia|done].
  - cbn [length] in Hfit.
    assert (Hle : sensorDataCount (storage w) + 1 <= max_uint256) by lia.
    cbn [submissions map run assigned_ids assigned fst snd].
    fold (submissions subs).
    unfold transact, call.
    rewrite (submitEncryptedSensorData_ok ctx a s w Hle). cbv zeta.
    match goal with |- context [run _ ?w1] => set (w' := w1) end.
    assert (Hc : sensorDataCount (storage w') = sensorDataCount (storage w) + 1) by done.
    destruct (IH w') as [IH1 IH2]; [rewrite Hc; lia|].
    rewrite IH1, IH2, Hc. split; [cbn [length]; lia|].
    cbn [length seq map app]. f_equal.
    rewrite <- (seq_shift (length subs) 1), map_map. apply map_ext. intros i. lia.
Qed.

(** C3.  From the initial state, [N] submissions (with [N] within the range
    of the [uint256] counter) are assigned the ids [1..N] in order; right
    after the [n+1]-st submission, record [n+1] holds the submitted handles,
    its outcome is the initial [("", false)] and the notification carrying
    its id is the last one emitted; in any world at all, a committed
    submission takes the next id and leaves its outcome [("", false)]; and in
    every reachable world nothing is stored under id 0. *)
Theorem submissions_assign_dense_ids o subs :
  N.of_nat (length subs) <= max_uint256 ->
  assigned_ids (submissions subs) (genesis o) = ids_upto (length subs)
  /\ (forall n ctx a s, subs !! n = Some (ctx, (a, s)) ->
       let id := N.of_nat (S n) in
       let w_before := run (submissions (take n subs)) (genesis o) in
       let w_after := run (submissions (take (S n) subs)) (genesis o) in
       sload (sensorDatas (storage w_after)) id
         = mkSensorData id a s (block_timestamp ctx)
       /\ getDecryptedEvent id w_after = (""%string, false)
       /\ logs w_after
          = logs w_before ++ [SensorDataSubmitted id (block_timestamp ctx)])
  /\ (forall w ctx a s w1, submitEncryptedSensorData ctx a s w = Ok w1 ->
       sensorDataCount (storage w1) = sensorDataCount (storage w) + 1
       /\ getDecryptedEvent (sensorDataCount (storage w1)) w1 = (""%string, false))
  /\ (forall w, reachable w ->
       sensorDatas (storage w) !! 0 = None
       /\ sd_id (sload (sensorDatas (storage w)) 0) = 0).
Proof.
  intros Hfit. split; [|split; [|split]].
  - destruct (run_submissions subs (genesis o)) as [_ Hids]; [simpl; lia|].
    rewrite Hids. unfold ids_upto. apply map_ext. intros i. simpl. lia.
  - intros n ctx a s Hn id w_before w_after.
    pose proof (lookup_lt_Some _ _ _ Hn) as Hlt.
    assert (Hcount : sensorDataCount (storage w_before) = N.of_nat n).
    { destruct (run_submissions (take n subs) (genesis o)) as [Hc _].
      - rewrite length_take. simpl. lia.
      - unfold w_before. rewrite Hc, length_take. simpl. lia. }
    assert (Hafter : w_after
              = transact ctx (SubmitEncryptedSensorData a s) w_before).
    { unfold w_after, w_before. rewrite (take_S_r _ _ _ Hn), submissions_app.
      by rewrite run_app. }
    assert (Hle : sensorDataCount (storage w_before) + 1 <= max_uint256)
      by (rewrite Hcount; lia).
    rewrite Hafter. unfold transact, call.
    rewrite (submitEncryptedSensorData_ok ctx a s w_before Hle). cbv zeta.
    assert (Hid : sensorDataCount (storage w_before) + 1 = id)
      by (rewrite Hcount; unfold id; lia).
    rewrite Hid. unfold getDecryptedEvent. simpl.
    by rewrite !sload_insert_eq.
  - intros w ctx a s w1 Hsub.
    destruct (N.le_gt_cases (sensorDataCount (storage w) + 1) max_uint256) as [Hle|Hgt].
    + rewrite (submitEncryptedSensorData_ok ctx a s w Hle) in Hsub.
      cbv zeta in Hsub. injection Hsub as <-.
      unfold getDecryptedEvent. simpl. by rewrite sload_insert_eq.
    + by rewrite submitEncryptedSensorData_overflow in Hsub.
  - intros w Hreach. destruct (reachable_Inv _ Hreach) as (toks & ids & HI).
    pose proof (inv_data_out _ _ _ HI 0 (or_introl eq_refl)) as Hnone.
    split; [exact Hnone|]. by rewrite (sload_None _ _ Hnone).
Qed.

(** C10.  [submitEncryptedAlert] changes the alert counter and the alert
    store only: whether it commits or reverts, the record counter, the
    sensor records, the outcomes and both correlation maps are the ones it
    started from; when it commits, the new alert is stored under the next
    alert id and the outcome map still has, under that id, whatever it had
    before, whereas a committing [submitEncryptedSensorData] stores the empty
    unhandled outcome under its new id. *)
Theorem submitEncryptedAlert_frame w ctx payload :
  let w' := transact ctx (SubmitEncryptedAlert payload) w in
  (sensorDataCount (storage w') = sensorDataCount (storage w)
   /\ sensorDatas (storage w') = sensorDatas (storage w)
   /\ decryptedEvents (storage w') = decryptedEvents (storage w)
   /\ requestToDataId (storage w') = requestToDataId (storage w)
   /\ requestToAlertId (storage w') = requestToAlertId (storage w))
  /\ (forall w1, submitEncryptedAlert ctx payload w = Ok w1 ->
        let newId := alertCount (storage w) + 1 in
        alertCount (storage w1) = newId
        /\ encryptedAlerts (storage w1)
           = <[newId := mkAlert newId payload (block_timestamp ctx)]>
               (encryptedAlerts (storage w))
        /\ decryptedEvents (storage w1) !! newId = decryptedEvents (storage w) !! newId
        /\ getDecryptedEvent newId w1 = getDecryptedEvent newId w)
  /\ (forall a s w2, submitEncryptedSensorData ctx a s w = Ok w2 ->
        decryptedEvents (storage w2) !! (sensorDataCount (storage w) + 1)
        = Some (mkDecryptedEvent "" false)).
Proof.
  intros w'. unfold w', transact, call. split; [|split].
  - unfold submitEncryptedAlert, checked_add. by destruct (_ <=? _).
  - intros w1. unfold submitEncryptedAlert. intros Hok. cbv zeta.
    destruct (checked_add (alertCount (storage w)) 1) as [count|] eqn:Hadd; [|done].
    apply checked_add_inv in Hadd as [-> _]. simpl in Hok. injection Hok as <-.
    done.
  - intros a s w2. unfold submitEncryptedSensorData. intros Hok.
    destruct (checked_add (sensorDataCount (storage w)) 1) as [count|] eqn:Hadd; [|done].
    apply checked_add_inv in Hadd as [-> _]. simpl in Hok. injection Hok as <-.
    simpl. by rewrite lookup_insert_eq.
Qed.

End Intake.

(** C3 on three submissions: ids 1, 2, 3, and id 2 right after the second. *)
Lemma submissions_assign_dense_ids_witness :
  let subs := [(Reference.ctx0, (11, 22)); (mkCtx 1700000060 42, (33, 44));
               (mkCtx 1700000120 43, (55, 66))] in
  N.of_nat (length subs) <= max_uint256
  /\ assigned_ids (F := Reference.fhevm) (submissions subs)
       (genesis (F := Reference.fhevm) 0) = [1; 2; 3]
  /\ getDecryptedEvent (F := Reference.fhevm) 2
       (run (F := Reference.fhevm) (submissions (take 2 subs))
          (genesis (F := Reference.fhevm) 0)) = (""%string, false).
Proof.
  intros subs.
  assert (Hfit : N.of_nat (length subs) <= max_uint256) by (vm_compute; discriminate).
  destruct (submissions_assign_dense_ids (F := Reference.fhevm) 0 subs Hfit)
    as (Hids & Hafter & _).
  split; [exact Hfit|]. split; [exact Hids|].
  destruct (Hafter 1%nat (mkCtx 1700000060 42) 33 44 eq_refl) as (_ & Hout & _).
  exact Hout.
Defined.

(** ** Requests and correlation *)

Section Requests.
Context `{F : FHEVM}.

(** C6.  In the world reached by any trace from the initial state, a
    callback whose token was not issued to any committed
    [requestAnomalyDetection] of that trace resolves to the sentinel 0, fails
    with [InvalidRequest] and leaves the world unchanged. *)
Theorem unknown_token_rejected o txs ctx t cl p :
  let w := run txs (genesis o) in
  t ∉ issued_tokens txs (genesis o) ->
  sload (requestToDataId (storage w)) t = 0
  /\ handleAnomalyResult ctx t cl p w = Revert InvalidRequest
  /\ transact ctx (HandleAnomalyResult t cl p) w = w.
Proof.
  intros w Hfresh.
  pose proof (Inv_run txs [] [] (genesis o) (Inv_genesis o)) as HI. fold w in HI.
  assert (Hz : sload (requestToDataId (storage w)) t = 0).
  { destruct (decide (sload (requestToDataId (storage w)) t = 0)) as [|Hnz]; [done|].
    destruct (Inv_token_range _ _ _ _ HI Hnz) as [_ Hin]. done. }
  assert (Hres : handleAnomalyResult ctx t cl p w = Revert InvalidRequest).
  { rewrite handleAnomalyResult_cases. cbv zeta. by rewrite Hz. }
  split; [exact Hz|]. split; [exact Hres|].
  exact (transact_revert ctx (HandleAnomalyResult t cl p) w _ Hres).
Qed.

(** C7.  In the world reached by any trace from the initial state,
    [requestAnomalyDetection] fails with [DataNotFound] for id 0 and for
    every id that no committed submission of the trace was assigned; the
    failed request leaves the world unchanged and obtains no token, so no
    correlation entry is registered. *)
Theorem request_unknown_record_rejected o txs ctx dataId :
  let w := run txs (genesis o) in
  dataId = 0 \/ dataId ∉ assigned_ids txs (genesis o) ->
  requestAnomalyDetection ctx dataId w = Revert DataNotFound
  /\ transact ctx (RequestAnomalyDetection dataId) w = w
  /\ issued ctx (RequestAnomalyDetection dataId) w = []
  /\ requestToDataId (storage (transact ctx (RequestAnomalyDetection dataId) w))
     = requestToDataId (storage w).
Proof.
  intros w Hnone.
  pose proof (Inv_run txs [] [] (genesis o) (Inv_genesis o)) as HI. fold w in HI.
  assert (Hout : dataId = 0 \/ sensorDataCount (storage w) < dataId).
  { destruct Hnone as [->|Hnot]; [by left|].
    destruct (decide (dataId = 0)) as [|Hnz]; [by left|]. right.
    destruct (N.lt_ge_cases (sensorDataCount (storage w)) dataId) as [|Hle]; [done|].
    exfalso. apply Hnot. apply (inv_ids _ _ _ HI). lia. }
  assert (Hres : requestAnomalyDetection ctx dataId w = Revert DataNotFound).
  { rewrite requestAnomalyDetection_cases. cbv zeta.
    by rewrite (sload_None _ _ (inv_data_out _ _ _ HI dataId Hout)). }
  pose proof (transact_revert _ (RequestAnomalyDetection dataId) _ _ Hres) as Hsame.
  split; [exact Hres|]. split; [exact Hsame|]. split.
  - unfold issued. by rewrite Hres.
  - by rewrite Hsame.
Qed.

End Requests.

(** C6 on the worked scenario: token 0 was issued, token 9 was not. *)
Lemma unknown_token_rejected_witness :
  (9 ∉ issued_tokens (F := Reference.fhevm)
         [Reference.submit_tx; Reference.request_tx] (genesis (F := Reference.fhevm) 0))
  /\ handleAnomalyResult (F := Reference.fhevm) Reference.ctx0 9
       Reference.fall_cleartexts (Reference.digest 9 Reference.fall_cleartexts)
       Reference.w_requested = Revert InvalidRequest.
Proof.
  assert (Hfresh : 9 ∉ issued_tokens (F := Reference.fhevm)
            [Reference.submit_tx; Reference.request_tx]
            (genesis (F := Reference.fhevm) 0)).
  { vm_compute. intros Hin. apply list_elem_of_singleton in Hin. discriminate Hin. }
  split; [exact Hfresh|].
  exact (proj1 (proj2 (unknown_token_rejected (F := Reference.fhevm) 0
           [Reference.submit_tx; Reference.request_tx] Reference.ctx0 9
           Reference.fall_cleartexts (Reference.digest 9 Reference.fall_cleartexts)
           Hfresh))).
Defined.

(** C7 on the worked scenario: only id 1 was assigned, so a request for
    id 2 is refused. *)
Lemma request_unknown_record_rejected_witness :
  (2 ∉ assigned_ids (F := Reference.fhevm)
         [Reference.submit_tx; Reference.request_tx] (genesis (F := Reference.fhevm) 0))
  /\ requestAnomalyDetection (F := Reference.fhevm) Reference.ctx0 2
       Reference.w_requested = Revert DataNotFound.
Proof.
  assert (Hnone : 2 ∉ assigned_ids (F := Reference.fhevm)
            [Reference.submit_tx; Reference.request_tx]
            (genesis (F := Reference.fhevm) 0)).
  { vm_compute. intros Hin. apply list_elem_of_singleton in Hin. discriminate Hin. }
  split; [exact Hnone|].
  exact (proj1 (request_unknown_record_rejected (F := Reference.fhevm) 0
           [Reference.submit_tx; Reference.request_tx] Reference.ctx0 2
           (or_intror Hnone))).
Defined.

(** ** What a committed callback stores *)

Section Delivery.
Context `{F : FHEVM}.

Lemma first_result_hd results : first_result results = hd ""%string results.
Proof. by destruct results. Qed.

Lemma submitEncryptedSensorData_inv ctx a s w w1 :
  submitEncryptedSensorData ctx a s w = Ok w1 ->
  sensorDataCount (storage w) + 1 <= max_uint256.
Proof.
  intros Hok.
  destruct (N.le_gt_cases (sensorDataCount (storage w) + 1) max_uint256) as [|Hgt]; [done|].
  by rewrite submitEncryptedSensorData_overflow in Hok.
Qed.

(** C4.  A committed [handleAnomalyResult] stores, for the record its token
    resolves to, the first element of the decoded list (the empty string for
    the empty list) with the handled flag set, and the world it returns
    depends on the decoded list through that first element only.  In
    particular: submit a record with handles [(a, s)]; the request for the id
    it was assigned commits and leaves the outcome [("", false)]; deliver for
    the token of that request a verified callback whose cleartexts decode to
    ["fall_detected"; "ok"]; the callback commits and [getDecryptedEvent] of
    the record returns [("fall_detected", true)]. *)
Theorem summary_is_first_result :
  (forall w ctx t cl p w1,
     handleAnomalyResult ctx t cl p w = Ok w1 ->
     let dataId := sload (requestToDataId (storage w)) t in
     exists results,
       abi_decode_strings cl = Some results
       /\ getDecryptedEvent dataId w1 = (hd ""%string results, true)
       /\ w1 = mkWorld
                 (set_decryptedEvents
                    (<[dataId := mkDecryptedEvent (hd ""%string results) true]>
                       (decryptedEvents (storage w))) (storage w))
                 (oracle w) (logs w ++ [AnomalyDetected dataId]))
  /\ (forall w ctx1 ctx2 ctx3 a s cl p w1,
        submitEncryptedSensorData ctx1 a s w = Ok w1 ->
        let id := sensorDataCount (storage w1) in
        let T := anomalyToken id w1 in
        exists w2,
          requestAnomalyDetection ctx2 id w1 = Ok w2
          /\ getDecryptedEvent id w2 = (""%string, false)
          /\ (checkSignatures (oracle w2) T cl p = true ->
              abi_decode_strings cl = Some ["fall_detected"; "ok"]%string ->
              exists w3,
                handleAnomalyResult ctx3 T cl p w2 = Ok w3
                /\ getDecryptedEvent id w3 = ("fall_detected"%string, true))).
Proof.
  split.
  - intros w ctx t cl p w1 Hok dataId.
    rewrite handleAnomalyResult_cases in Hok. cbv zeta in Hok. fold dataId in Hok.
    destruct (dataId =? 0); [done|]. destruct (isHandled _); [done|].
    destruct (negb _); [done|].
    destruct (abi_decode_strings cl) as [results|]; [|done].
    injection Hok as <-. exists results. rewrite first_result_hd.
    split; [done|]. split; [|done].
    unfold getDecryptedEvent. simpl. by rewrite sload_insert_eq.
  - intros w ctx1 ctx2 ctx3 a s cl p w1 Hsub id T.
    pose proof (submitEncryptedSensorData_inv _ _ _ _ _ Hsub) as Hle.
    rewrite (submitEncryptedSensorData_ok ctx1 a s w Hle) in Hsub.
    cbv zeta in Hsub. injection Hsub as Hw1.
    assert (Hid : id = sensorDataCount (storage w) + 1) by (unfold id; by rewrite <- Hw1).
    assert (Hrec : sload (sensorDatas (storage w1)) id
                   = mkSensorData id a s (block_timestamp ctx1)).
    { rewrite Hid, <- Hw1. simpl. by rewrite sload_insert_eq. }
    assert (Hev : sload (decryptedEvents (storage w1)) id = mkDecryptedEvent "" false).
    { rewrite Hid, <- Hw1. simpl. by rewrite sload_insert_eq. }
    rewrite requestAnomalyDetection_cases. cbv zeta.
    rewrite Hrec. simpl.
    destruct (N.eqb_spec id 0) as [Hz|_]; [lia|].
    fold T. eexists. split; [reflexivity|].
    split; [unfold getDecryptedEvent; simpl; by rewrite Hev|].
    intros Hsig Hdec. simpl in Hsig.
    rewrite handleAnomalyResult_cases. cbv zeta. simpl.
    rewrite sload_insert_eq, Hev, Hsig, Hdec. simpl.
    destruct (N.eqb_spec id 0) as [Hz|_]; [lia|].
    eexists. split; [reflexivity|].
    unfold getDecryptedEvent. simpl. by rewrite sload_insert_eq.
Qed.

Lemma handle_frame ctx t cl p w :
  let w' := transact ctx (HandleAnomalyResult t cl p) w in
  requestToDataId (storage w') = requestToDataId (storage w)
  /\ oracle w' = oracle w.
Proof.
  cbv zeta. rewrite transact_handle. by destruct (callback_effect t cl p w).
Qed.

(** Whether, and what, a callback writes is not affected by a callback for
    another record. *)
Lemma callback_effect_frame ctx2 t1 cl1 p1 t2 cl2 p2 w :
  sload (requestToDataId (storage w)) t1 <> sload (requestToDataId (storage w)) t2 ->
  callback_effect t1 cl1 p1 (transact ctx2 (HandleAnomalyResult t2 cl2 p2) w)
  = callback_effect t1 cl1 p1 w.
Proof.
  intros Hne. rewrite transact_handle.
  destruct (callback_effect t2 cl2 p2 w) as [e2|]; [|done].
  unfold callback_effect. simpl. by rewrite sload_insert_ne.
Qed.

Lemma callback_effect_verified t cl p w results :
  sload (requestToDataId (storage w)) t <> 0 ->
  (getDecryptedEvent (sload (requestToDataId (storage w)) t) w).2 = false ->
  checkSignatures (oracle w) t cl p = true ->
  abi_decode_strings cl = Some results ->
  callback_effect t cl p w = Some (mkDecryptedEvent (hd ""%string results) true).
Proof.
  intros Hnz Hun Hsig Hdec. unfold callback_effect.
  destruct (N.eqb_spec (sload (requestToDataId (storage w)) t) 0); [done|].
  unfold getDecryptedEvent in Hun. simpl in Hun.
  by rewrite Hun, Hsig, Hdec, first_result_hd.
Qed.

(** C8.  Callbacks for two distinct records commute: delivered in either
    order they leave the same storage, and each record's outcome is the one
    its own callback produces when delivered alone; when both records are
    unhandled and both callbacks verified and well-formed, each outcome is the
    first decoded string of its own cleartexts with the handled flag set. *)
Theorem independent_callbacks_commute w ctx1 t1 cl1 p1 ctx2 t2 cl2 p2 :
  let R1 := sload (requestToDataId (storage w)) t1 in
  let R2 := sload (requestToDataId (storage w)) t2 in
  let deliver1 := transact ctx1 (HandleAnomalyResult t1 cl1 p1) in
  let deliver2 := transact ctx2 (HandleAnomalyResult t2 cl2 p2) in
  R1 <> R2 ->
  storage (deliver1 (deliver2 w)) = storage (deliver2 (deliver1 w))
  /\ oracle (deliver1 (deliver2 w)) = oracle (deliver2 (deliver1 w))
  /\ getDecryptedEvent R1 (deliver1 (deliver2 w)) = getDecryptedEvent R1 (deliver1 w)
  /\ getDecryptedEvent R1 (deliver2 (deliver1 w)) = getDecryptedEvent R1 (deliver1 w)
  /\ getDecryptedEvent R2 (deliver1 (deliver2 w)) = getDecryptedEvent R2 (deliver2 w)
  /\ getDecryptedEvent R2 (deliver2 (deliver1 w)) = getDecryptedEvent R2 (deliver2 w)
  /\ (forall l1 l2,
        R1 <> 0 -> R2 <> 0 ->
        (getDecryptedEvent R1 w).2 = false -> (getDecryptedEvent R2 w).2 = false ->
        checkSignatures (oracle w) t1 cl1 p1 = true ->
        checkSignatures (oracle w) t2 cl2 p2 = true ->
        abi_decode_strings cl1 = Some l1 -> abi_decode_strings cl2 = Some l2 ->
        getDecryptedEvent R1 (deliver1 (deliver2 w)) = (hd ""%string l1, true)
        /\ getDecryptedEvent R2 (deliver1 (deliver2 w)) = (hd ""%string l2, true)).
Proof.
  intros R1 R2 deliver1 deliver2 Hne.
  assert (Hne' : R2 <> R1) by congruence.
  destruct (handle_frame ctx1 t1 cl1 p1 w) as [Hq1 Ho1].
  destruct (handle_frame ctx2 t2 cl2 p2 w) as [Hq2 Ho2].
  cbv zeta in Hq1, Ho1, Hq2, Ho2. fold (deliver1 w) in Hq1, Ho1.
  fold (deliver2 w) in Hq2, Ho2.
  assert (H12 : deliver1 (deliver2 w) =
    match callback_effect t1 cl1 p1 w with
    | Some e => mkWorld (set_decryptedEvents
                   (<[R1 := e]> (decryptedEvents (storage (deliver2 w))))
                   (storage (deliver2 w)))
                 (oracle (deliver2 w)) (logs (deliver2 w) ++ [AnomalyDetected R1])
    | None => deliver2 w
    end).
  { unfold deliver1 at 1. rewrite transact_handle. fold (deliver2 w).
    unfold deliver2 at 1. rewrite (callback_effect_frame ctx2) by done.
    fold (deliver2 w). cbv zeta. by rewrite Hq2. }
  assert (H21 : deliver2 (deliver1 w) =
    match callback_effect t2 cl2 p2 w with
    | Some e => mkWorld (set_decryptedEvents
                   (<[R2 := e]> (decryptedEvents (storage (deliver1 w))))
                   (storage (deliver1 w)))
                 (oracle (deliver1 w)) (logs (deliver1 w) ++ [AnomalyDetected R2])
    | None => deliver1 w
    end).
  { unfold deliver2 at 1. rewrite transact_handle. fold (deliver1 w).
    unfold deliver1 at 1. rewrite (callback_effect_frame ctx1) by done.
    fold (deliver1 w). cbv zeta. by rewrite Hq1. }
  assert (H1 : deliver1 w =
    match callback_effect t1 cl1 p1 w with
    | Some e => mkWorld (set_decryptedEvents
                   (<[R1 := e]> (decryptedEvents (storage w))) (storage w))
                 (oracle w) (logs w ++ [AnomalyDetected R1])
    | None => w
    end) by apply transact_handle.
  assert (H2 : deliver2 w =
    match callback_effect t2 cl2 p2 w with
    | Some e => mkWorld (set_decryptedEvents
                   (<[R2 := e]> (decryptedEvents (storage w))) (storage w))
                 (oracle w) (logs w ++ [AnomalyDetected R2])
    | None => w
    end) by apply transact_handle.
  assert (Hcore :
    storage (deliver1 (deliver2 w)) = storage (deliver2 (deliver1 w))
    /\ oracle (deliver1 (deliver2 w)) = oracle (deliver2 (deliver1 w))
    /\ getDecryptedEvent R1 (deliver1 (deliver2 w)) = getDecryptedEvent R1 (deliver1 w)
    /\ getDecryptedEvent R1 (deliver2 (deliver1 w)) = getDecryptedEvent R1 (deliver1 w)
    /\ getDecryptedEvent R2 (deliver1 (deliver2 w)) = getDecryptedEvent R2 (deliver2 w)
    /\ getDecryptedEvent R2 (deliver2 (deliver1 w)) = getDecryptedEvent R2 (deliver2 w)).
  { rewrite H12, H21. rewrite H1, H2.
    destruct (callback_effect t1 cl1 p1 w) as [e1|],
             (callback_effect t2 cl2 p2 w) as [e2|];
      unfold getDecryptedEvent, set_decryptedEvents; simpl;
      rewrite ?sload_insert_eq, ?(sload_insert_ne _ R1 R2), ?(sload_insert_ne _ R2 R1),
              ?sload_insert_eq by done;
      repeat split; try done.
    f_equal. by apply insert_insert_ne. }
  destruct Hcore as (Hs & Ho & Ha & Hb & Hc & Hd).
  repeat (split; [assumption|]).
  intros l1 l2 Hnz1 Hnz2 Hu1 Hu2 Hsig1 Hsig2 Hdec1 Hdec2.
  rewrite Ha, Hc, H1, H2.
  rewrite (callback_effect_verified t1 cl1 p1 w l1), (callback_effect_verified t2 cl2 p2 w l2)
    by done.
  unfold getDecryptedEvent. simpl. by rewrite !sload_insert_eq.
Qed.

End Delivery.

(** C4 on the worked scenario, from the initial state: the record gets id 1,
    the request token 0, and the callback leaves [("fall_detected", true)]. *)
Lemma summary_is_first_result_witness :
  exists w3,
    handleAnomalyResult (F := Reference.fhevm) Reference.ctx0 0
      Reference.fall_cleartexts (Reference.digest 0 Reference.fall_cleartexts)
      Reference.w_requested = Ok w3
    /\ getDecryptedEvent (F := Reference.fhevm) 1 w3 = ("fall_detected"%string, true).
Proof.
  assert (Hsub : submitEncryptedSensorData (F := Reference.fhevm) Reference.ctx0 11 22
                   (genesis (F := Reference.fhevm) 0)
                 = Ok (run (F := Reference.fhevm) [Reference.submit_tx]
                         (genesis (F := Reference.fhevm) 0)))
    by (vm_compute; reflexivity).
  assert (Hsig : checkSignatures (FHEVM := Reference.fhevm)
                   (oracle Reference.w_requested) 0 Reference.fall_cleartexts
                   (Reference.digest 0 Reference.fall_cleartexts) = true)
    by (vm_compute; reflexivity).
  assert (Hdec : abi_decode_strings (FHEVM := Reference.fhevm) Reference.fall_cleartexts
                 = Some ["fall_detected"; "ok"]%string)
    by (vm_compute; reflexivity).
  destruct (proj2 (summary_is_first_result (F := Reference.fhevm))
              (genesis (F := Reference.fhevm) 0) Reference.ctx0 Reference.ctx0
              Reference.ctx0 11 22 Reference.fall_cleartexts
              (Reference.digest 0 Reference.fall_cleartexts) _ Hsub)
    as (w2 & Hreq & _ & Hdeliver).
  assert (Hw2 : w2 = Reference.w_requested).
  { assert (Hreq' : requestAnomalyDetection (F := Reference.fhevm) Reference.ctx0 1
                      (run (F := Reference.fhevm) [Reference.submit_tx]
                         (genesis (F := Reference.fhevm) 0))
                    = Ok Reference.w_requested) by (vm_compute; reflexivity).
    assert (Hboth : Ok w2 = Ok Reference.w_requested)
      by (rewrite <- Hreq; exact Hreq').
    by injection Hboth. }
  rewrite Hw2 in Hdeliver. exact (Hdeliver Hsig Hdec).
Defined.

(** C8 on two records with outstanding requests (tokens 0 and 1): whichever
    callback is delivered first, record 1 ends with "fall_detected" and
    record 2 with "no_anomaly". *)
Lemma independent_callbacks_commute_witness :
  let deliver1 := transact (F := Reference.fhevm) Reference.ctx0
        (HandleAnomalyResult 0 Reference.fall_cleartexts
           (Reference.digest 0 Reference.fall_cleartexts)) in
  let deliver2 := transact (F := Reference.fhevm) Reference.ctx0
        (HandleAnomalyResult 1 Reference.calm_cleartexts
           (Reference.digest 1 Reference.calm_cleartexts)) in
  storage (deliver1 (deliver2 Reference.w_two_requests))
  = storage (deliver2 (deliver1 Reference.w_two_requests))
  /\ getDecryptedEvent (F := Reference.fhevm) 1
       (deliver1 (deliver2 Reference.w_two_requests)) = ("fall_detected"%string, true)
  /\ getDecryptedEvent (F := Reference.fhevm) 2
       (deliver1 (deliver2 Reference.w_two_requests)) = ("no_anomaly"%string, true).
Proof.
  intros deliver1 deliver2.
  assert (Hne : sload (requestToDataId (storage Reference.w_two_requests)) 0
                <> sload (requestToDataId (storage Reference.w_two_requests)) 1)
    by (vm_compute; discriminate).
  destruct (independent_callbacks_commute (F := Reference.fhevm)
              Reference.w_two_requests
              Reference.ctx0 0 Reference.fall_cleartexts
              (Reference.digest 0 Reference.fall_cleartexts)
              Reference.ctx0 1 Reference.calm_cleartexts
              (Reference.digest 1 Reference.calm_cleartexts) Hne)
    as (Hs & _ & _ & _ & _ & _ & Hout).
  split; [exact Hs|].
  apply (Hout ["fall_detected"; "ok"]%string ["no_anomaly"]%string);
    vm_compute; (reflexivity || discriminate).
Defined.

(** ** The alert callback *)

Section AlertCallback.
Context `{F : FHEVM}.

Lemma run_redeliver_S n ctx t cl p w :
  run (redeliver (S n) ctx t cl p) w
  = run (redeliver n ctx t cl p) (transact ctx (HandleAlertCleartext t cl p) w).
Proof. done. Qed.

(** Behind the token and signature guards the callback still decodes its
    cleartexts, and reverts when they are not the encoding of a string. *)
Lemma alert_callback_malformed_reverts w ctx t cl p :
  sload (requestToAlertId (storage w)) t <> 0 ->
  checkSignatures (oracle w) t cl p = true ->
  abi_decode_string cl = None ->
  handleAlertCleartext ctx t cl p w = Revert DecodeFailure.
Proof.
  intros Hreg Hsig Hdec. rewrite handleAlertCleartext_cases. cbv zeta.
  rewrite Hsig, Hdec. by destruct (N.eqb_spec (sload (requestToAlertId (storage w)) t) 0).
Qed.

(** C5 (as amended).  The alert callback has no idempotence guard and
    persists nothing.  For a registered token, a proof that verifies and
    cleartexts that decode as a string, it commits on every invocation: after
    [n] deliveries the storage and the library state are the ones it started
    from, the log has grown by [n] alert-decrypted notifications, and one
    more delivery commits again and emits one more.  For every input at all,
    it never fails with [AlreadyHandled] and never changes the storage. *)
Theorem alert_callback_repeatable w ctx t cl p :
  sload (requestToAlertId (storage w)) t <> 0 ->
  checkSignatures (oracle w) t cl p = true ->
  is_Some (abi_decode_string cl) ->
  let alertId := sload (requestToAlertId (storage w)) t in
  (forall n,
     let w_n := run (redeliver n ctx t cl p) w in
     storage w_n = storage w
     /\ oracle w_n = oracle w
     /\ logs w_n = logs w ++ replicate n (AlertDecrypted alertId)
     /\ handleAlertCleartext ctx t cl p w_n = Ok (emit (AlertDecrypted alertId) w_n))
  /\ (forall ctx' t' cl' p' w',
        handleAlertCleartext ctx' t' cl' p' w' <> Revert AlreadyHandled
        /\ storage (transact ctx' (HandleAlertCleartext t' cl' p') w') = storage w').
Proof.
  intros Hreg Hsig [s Hdec] alertId. split.
  - assert (Hcall : forall w0, storage w0 = storage w -> oracle w0 = oracle w ->
              handleAlertCleartext ctx t cl p w0 = Ok (emit (AlertDecrypted alertId) w0)).
    { intros w0 Hs Ho. rewrite handleAlertCleartext_cases. cbv zeta.
      rewrite Hs, Ho, Hsig, Hdec. fold alertId.
      by destruct (N.eqb_spec alertId 0). }
    intros n. cbv zeta.
    assert (Hgen : forall w0, storage w0 = storage w -> oracle w0 = oracle w ->
              storage (run (redeliver n ctx t cl p) w0) = storage w
              /\ oracle (run (redeliver n ctx t cl p) w0) = oracle w
              /\ logs (run (redeliver n ctx t cl p) w0)
                 = logs w0 ++ replicate n (AlertDecrypted alertId)).
    { induction n as [|n IH]; intros w0 Hs Ho.
      - simpl. by rewrite app_nil_r.
      - rewrite run_redeliver_S.
        rewrite (transact_ok ctx (HandleAlertCleartext t cl p) w0 _ (Hcall w0 Hs Ho)).
        destruct (IH (emit (AlertDecrypted alertId) w0)) as (IH1 & IH2 & IH3); [done..|].
        rewrite IH1, IH2, IH3. simpl. by rewrite <- app_assoc. }
    destruct (Hgen w eq_refl eq_refl) as (H1 & H2 & H3).
    repeat (split; [assumption|]). by apply Hcall.
  - intros ctx' t' cl' p' w'. unfold transact, call.
    rewrite handleAlertCleartext_cases. cbv zeta.
    destruct (_ =? 0); [done|]. destruct (negb _); [done|].
    by destruct (abi_decode_string cl').
Qed.

End AlertCallback.

Lemma reachable_w_alert_requested :
  reachable (F := Reference.fhevm) Reference.w_alert_requested.
Proof.
  exists 0, [(Reference.ctx0, SubmitEncryptedAlert 99);
             (Reference.ctx0, RequestAlertDecryption 1)].
  reflexivity.
Qed.

(** C5 as stated does not hold: alert 1 has the registered token 0 and the
    proof verifies, but the cleartexts are the encoding of a bare integer,
    which does not decode as a string, and the callback reverts. *)
Lemma verified_alert_callback_can_revert :
  reachable (F := Reference.fhevm) Reference.w_alert_requested
  /\ sload (requestToAlertId (storage Reference.w_alert_requested)) 0 = 1
  /\ checkSignatures (FHEVM := Reference.fhevm) (oracle Reference.w_alert_requested) 0
       Reference.raw_cleartexts (Reference.digest 0 Reference.raw_cleartexts) = true
  /\ handleAlertCleartext (F := Reference.fhevm) Reference.ctx0 0
       Reference.raw_cleartexts (Reference.digest 0 Reference.raw_cleartexts)
       Reference.w_alert_requested = Revert DecodeFailure.
Proof.
  split; [exact reachable_w_alert_requested|].
  repeat split; vm_compute; reflexivity.
Qed.

(** The amended C5 on the worked scenario: the same verified, well-formed
    callback for alert 1 commits twice and the notification is emitted
    twice. *)
Lemma alert_callback_repeatable_witness :
  let cl := Reference.alert_cleartexts in
  let p := Reference.digest 0 Reference.alert_cleartexts in
  let w := Reference.w_alert_requested in
  let w1 := transact (F := Reference.fhevm) Reference.ctx0 (HandleAlertCleartext 0 cl p) w in
  handleAlertCleartext (F := Reference.fhevm) Reference.ctx0 0 cl p w1
    = Ok (emit (AlertDecrypted 1) w1)
  /\ logs (run (F := Reference.fhevm) (redeliver 2 Reference.ctx0 0 cl p) w)
     = logs w ++ [AlertDecrypted 1; AlertDecrypted 1]
  /\ storage (run (F := Reference.fhevm) (redeliver 2 Reference.ctx0 0 cl p) w)
     = storage w.
Proof.
  intros cl p w w1.
  assert (Hreg : sload (requestToAlertId (storage w)) 0 <> 0)
    by (vm_compute; discriminate).
  assert (Hsig : checkSignatures (FHEVM := Reference.fhevm) (oracle w) 0 cl p = true)
    by (vm_compute; reflexivity).
  assert (Hdec : is_Some (abi_decode_string (FHEVM := Reference.fhevm) cl))
    by (exists "door_open"%string; vm_compute; reflexivity).
  destruct (alert_callback_repeatable (F := Reference.fhevm) w Reference.ctx0 0 cl p
              Hreg Hsig Hdec) as [Hrep _].
  split; [|split].
  - exact (proj2 (proj2 (proj2 (Hrep 1%nat)))).
  - exact (proj1 (proj2 (proj2 (Hrep 2%nat)))).
  - exact (proj1 (Hrep 2%nat)).
Defined.

(** * Further properties of the ledger *)

Section LedgerSteps.
Context `{F : FHEVM}.

Lemma submitEncryptedAlert_ok ctx p w :
  alertCount (storage w) + 1 <= max_uint256 ->
  let newId := alertCount (storage w) + 1 in
  submitEncryptedAlert ctx p w =
    Ok (mkWorld
          (set_encryptedAlerts
             (<[newId := mkAlert newId p (block_timestamp ctx)]>
                (encryptedAlerts (storage w)))
             (set_alertCount newId (storage w)))
          (oracle w)
          (logs w ++ [EncryptedAlertSubmitted newId (block_timestamp ctx)])).
Proof.
  intros Hle. unfold submitEncryptedAlert. by rewrite checked_add_ok.
Qed.

Lemma submitEncryptedAlert_overflow ctx p w :
  max_uint256 < alertCount (storage w) + 1 ->
  submitEncryptedAlert ctx p w = Revert Overflow.
Proof.
  intros Hlt. unfold submitEncryptedAlert, checked_add.
  by rewrite (proj2 (N.leb_gt _ _) Hlt).
Qed.

Lemma requestAlertDecryption_cases ctx alertId w :
  let a := sload (encryptedAlerts (storage w)) alertId in
  requestAlertDecryption ctx alertId w =
    if al_id a =? 0 then Revert AlertNotFound
    else
      let r := requestDecryption (oracle w) [toBytes32 (encryptedAlertPayload a)]
                 handleAlertCleartext_selector in
      Ok (mkWorld
            (set_requestToAlertId
               (<[alertToken alertId w := alertId]> (requestToAlertId (storage w)))
               (storage w))
            r.2 (logs w ++ [AlertDecryptionRequested alertId])).
Proof.
  intros a. unfold requestAlertDecryption, onlySource, alertToken. fold a.
  destruct (al_id a =? 0); simpl; [done|].
  by destruct (requestDecryption _ _ _) as [reqId o].
Qed.

(** Every transaction either leaves the world as it was or commits one of
    the six effects. *)
Lemma transact_cases ctx c w :
  transact ctx c w = w \/ Commit w (transact ctx c w).
Proof.
  unfold transact, call. destruct c as [a s|d|t cl p|pl|al|t cl p].
  - destruct (N.le_gt_cases (sensorDataCount (storage w) + 1) max_uint256) as [Hle|Hgt].
    + rewrite submitEncryptedSensorData_ok by done. right. by apply commit_record.
    + rewrite submitEncryptedSensorData_overflow by done. by left.
  - rewrite requestAnomalyDetection_cases. cbv zeta.
    destruct (N.eqb_spec (sd_id (sload (sensorDatas (storage w)) d)) 0) as [|Hnz];
      [by left|].
    right. apply commit_request; [done|]. unfold anomalyToken.
    by destruct (requestDecryption _ _ _).
  - rewrite handleAnomalyResult_cases. cbv zeta.
    destruct (N.eqb_spec (sload (requestToDataId (storage w)) t) 0) as [|Hnz]; [by left|].
    destruct (isHandled _) eqn:Hh; [by left|].
    destruct (negb _); [by left|].
    destruct (abi_decode_strings cl) as [results|]; [|by left].
    right. by apply commit_result.
  - destruct (N.le_gt_cases (alertCount (storage w) + 1) max_uint256) as [Hle|Hgt].
    + rewrite submitEncryptedAlert_ok by done. right. by apply commit_alert.
    + rewrite submitEncryptedAlert_overflow by done. by left.
  - rewrite requestAlertDecryption_cases. cbv zeta.
    destruct (N.eqb_spec (al_id (sload (encryptedAlerts (storage w)) al)) 0) as [|Hnz];
      [by left|].
    right. apply commit_alert_request; [done|]. unfold alertToken.
    by destruct (requestDecryption _ _ _).
  - rewrite handleAlertCleartext_cases. cbv zeta.
    destruct (N.eqb_spec (sload (requestToAlertId (storage w)) t) 0) as [|Hnz]; [by left|].
    destruct (negb _); [by left|].
    destruct (abi_decode_string cl); [|by left].
    right. by apply commit_alert_result.
Qed.

Lemma detections_snoc k l e :
  detections k (l ++ [e]) = (detections k l + (if is_detection k e then 1 else 0))%nat.
Proof.
  unfold detections. rewrite List.filter_app, length_app. simpl.
  by destruct (is_detection k e).
Qed.

Lemma submission_count_snoc l e :
  submission_count (l ++ [e])
  = (submission_count l + (if is_submission e then 1 else 0))%nat.
Proof.
  unfold submission_count. rewrite List.filter_app, length_app. simpl.
  by destruct (is_submission e).
Qed.

Lemma elem_of_snoc {A} (l : list A) (x y : A) : x ∈ l ++ [y] <-> x ∈ l \/ x = y.
Proof. by rewrite elem_of_app, list_elem_of_singleton. Qed.

Lemma event_in_range_mono s s' e :
  sensorDataCount s <= sensorDataCount s' -> alertCount s <= alertCount s' ->
  event_in_range s e -> event_in_range s' e.
Proof. intros H1 H2. destruct e; simpl; lia. Qed.

Lemma LedgerInv_genesis o : LedgerInv (genesis o).
Proof.
  split; simpl; try done.
  - intros k Hk. lia.
  - intros k ts. split; [by intros ?%elem_of_nil | lia].
  - intros e He. by apply elem_of_nil in He.
Qed.

End LedgerSteps.

Section LedgerInvariant.
Context `{F : FHEVM}.

Lemma sload_N_lookup (m : gmap N N) t :
  sload m t <> 0 -> m !! t = Some (sload m t).
Proof. unfold sload. destruct (m !! t); simpl; [done|]. intros Hz. by destruct Hz. Qed.

(** A stored alert lies in the dense range of alert ids. *)
Lemma LedgerInv_alert_range w k :
  LedgerInv w -> al_id (sload (encryptedAlerts (storage w)) k) <> 0 ->
  1 <= k <= alertCount (storage w).
Proof.
  intros HL Hid.
  destruct (decide (k = 0 \/ alertCount (storage w) < k)) as [Hout|Hin]; [|lia].
  exfalso. apply Hid. by rewrite (sload_None _ _ (linv_alert_out _ HL k Hout)).
Qed.

(** The log tactics: membership in, and counts over, a log extended by one
    event. *)
Ltac log_step :=
  repeat first
    [ rewrite detections_snoc
    | rewrite submission_count_snoc
    | rewrite elem_of_snoc ];
  simpl.

Lemma LedgerInv_commit toks ids w w' :
  Inv toks ids w -> LedgerInv w -> Commit w w' -> LedgerInv w'.
Proof.
  intros HI HL HC.
  pose proof HI as [Hc Hin Hout Hev Hreq Hids].
  pose proof HL as [La Lin Lout Lreq Lsum Ldet Lsub Lcnt Ltok Lhr Levs].
  destruct HC as [a s ts Hle newId|dataId reqId o Hnz Hcall|requestId text dataId Hnz Hun
                 |payload ts Hle newId|alertId reqId o Hnz Hcall|requestId Hnz].
  - (* a record is stored *)
    assert (Hfresh : isHandled (sload (decryptedEvents (storage w)) newId) = false).
    { assert (Hnew : newId = 0 \/ sensorDataCount (storage w) < newId)
        by (unfold newId; lia).
      by rewrite (sload_None _ _ (Hev newId Hnew)). }
    split; simpl; try done.
    + intros k. destruct (decide (newId = k)) as [<-|Hne].
      * by rewrite sload_insert_eq.
      * rewrite sload_insert_ne by done. apply Lsum.
    + intros k. log_step. rewrite Nat.add_0_r.
      destruct (decide (newId = k)) as [<-|Hne].
      * rewrite sload_insert_eq. simpl. by rewrite Ldet, Hfresh.
      * rewrite sload_insert_ne by done. apply Ldet.
    + intros k ts'. log_step. rewrite Lsub.
      destruct (decide (newId = k)) as [<-|Hne].
      * rewrite sload_insert_eq. simpl. unfold newId. split.
        -- intros [[? _]|[= <-]]; [lia|]. split; [lia|done].
        -- intros [_ <-]. by right.
      * rewrite sload_insert_ne by done. unfold newId in *. split.
        -- intros [[? ?]|[= ? ?]]; [|done]. split; [lia|done].
        -- intros [? ?]. left. split; [lia|done].
    + log_step. unfold newId. lia.
    + intros t d Htd. log_step. left. by apply (Ltok t).
    + intros k. destruct (decide (newId = k)) as [<-|Hne].
      * by rewrite sload_insert_eq.
      * rewrite sload_insert_ne by done. intros Hk. log_step. left. by apply Lhr.
    + intros e. log_step. intros [He| ->].
      * apply (event_in_range_mono (storage w)); simpl; [unfold newId; lia|lia|].
        by apply Levs.
      * simpl. unfold newId. lia.
  - (* an anomaly request is registered *)
    pose proof (Inv_record_range _ _ _ _ HI Hnz) as Hd.
    split; simpl; try done.
    + intros k. log_step. rewrite Nat.add_0_r. apply Ldet.
    + intros k ts. log_step. rewrite Lsub. split; [|by left].
      intros [?|[=]]; done.
    + log_step. lia.
    + intros t d Htd. log_step.
      destruct (decide (reqId = t)) as [<-|Hne].
      * rewrite lookup_insert_eq in Htd. injection Htd as <-. by right.
      * rewrite lookup_insert_ne in Htd by done. left. by apply (Ltok t).
    + intros k Hk. log_step. left. by apply Lhr.
    + intros e. log_step. intros [He| ->]; [by apply Levs|]. simpl. done.
  - (* a result is applied *)
    destruct (Inv_token_range _ _ _ _ HI Hnz) as [Hd _]. fold dataId in Hd.
    split; simpl; try done.
    + intros k. destruct (decide (dataId = k)) as [<-|Hne].
      * by rewrite sload_insert_eq.
      * rewrite sload_insert_ne by done. apply Lsum.
    + intros k. log_step.
      destruct (decide (dataId = k)) as [<-|Hne].
      * rewrite sload_insert_eq, N.eqb_refl, Ldet, Hun. done.
      * rewrite sload_insert_ne by done.
        rewrite (proj2 (N.eqb_neq _ _) Hne), Nat.add_0_r. apply Ldet.
    + intros k ts. log_step. rewrite Lsub. split; [|by left].
      intros [?|[=]]; done.
    + log_step. lia.
    + intros t d Htd. log_step. left. by apply (Ltok t).
    + intros k. log_step. destruct (decide (dataId = k)) as [<-|Hne].
      * intros _. left. apply (Ltok requestId). by apply sload_N_lookup.
      * rewrite sload_insert_ne by done. intros Hk. left. by apply Lhr.
    + intros e. log_step. intros [He| ->]; [by apply Levs|]. simpl. done.
  - (* an alert is stored *)
    split; simpl; try done.
    + intros k Hk. destruct (decide (newId = k)) as [<-|Hne].
      * by rewrite sload_insert_eq.
      * rewrite sload_insert_ne by done. apply Lin. unfold newId in *. lia.
    + intros k Hk. unfold newId in *. rewrite lookup_insert_ne by lia. apply Lout. lia.
    + intros t a Hta. destruct (Lreq t a Hta). unfold newId. lia.
    + intros k. log_step. rewrite Nat.add_0_r. apply Ldet.
    + intros k ts'. log_step. rewrite Lsub. split; [|by left].
      intros [?|[=]]; done.
    + log_step. lia.
    + intros t d Htd. log_step. left. by apply (Ltok t).
    + intros k Hk. log_step. left. by apply Lhr.
    + intros e. log_step. intros [He| ->].
      * apply (event_in_range_mono (storage w)); simpl; [lia|unfold newId; lia|].
        by apply Levs.
      * simpl. unfold newId. lia.
  - (* an alert request is registered *)
    pose proof (LedgerInv_alert_range _ _ HL Hnz) as Ha.
    split; simpl; try done.
    + intros t a Hta. destruct (decide (reqId = t)) as [<-|Hne].
      * rewrite lookup_insert_eq in Hta. by injection Hta as <-.
      * rewrite lookup_insert_ne in Hta by done. by apply (Lreq t).
    + intros k. log_step. rewrite Nat.add_0_r. apply Ldet.
    + intros k ts. log_step. rewrite Lsub. split; [|by left].
      intros [?|[=]]; done.
    + log_step. lia.
    + intros t d Htd. log_step. left. by apply (Ltok t).
    + intros k Hk. log_step. left. by apply Lhr.
    + intros e. log_step. intros [He| ->]; [by apply Levs|]. simpl. done.
  - (* an alert is notified *)
    pose proof (Lreq _ _ (sload_N_lookup _ _ Hnz)) as Ha.
    split; simpl; try done.
    + intros k. log_step. rewrite Nat.add_0_r. apply Ldet.
    + intros k ts. log_step. rewrite Lsub. split; [|by left].
      intros [?|[=]]; done.
    + log_step. lia.
    + intros t d Htd. log_step. left. by apply (Ltok t).
    + intros k Hk. log_step. left. by apply Lhr.
    + intros e. log_step. intros [He| ->]; [by apply Levs|]. simpl. done.
Qed.

Lemma LedgerInv_step toks ids w ctx c :
  Inv toks ids w -> LedgerInv w -> LedgerInv (transact ctx c w).
Proof.
  intros HI HL. destruct (transact_cases ctx c w) as [->|HC]; [done|].
  by apply (LedgerInv_commit toks ids w).
Qed.

Lemma LedgerInv_run txs : forall toks ids w,
  Inv toks ids w -> LedgerInv w -> LedgerInv (run txs w).
Proof.
  induction txs as [|[ctx c] txs IH]; intros toks ids w HI HL; simpl; [done|].
  apply (IH _ _ _ (Inv_step _ _ _ ctx c HI)). by apply (LedgerInv_step toks ids).
Qed.

Lemma reachable_LedgerInv w : reachable w -> LedgerInv w.
Proof.
  intros (o & txs & <-).
  apply (LedgerInv_run txs [] [] (genesis o) (Inv_genesis o) (LedgerInv_genesis o)).
Qed.

End LedgerInvariant.

Section LogOrder.
Context `{F : FHEVM}.

Lemma snoc_split {A} (l l1 l2 : list A) (x e : A) :
  l ++ [x] = l1 ++ e :: l2 ->
  (l2 = [] /\ l1 = l /\ e = x) \/ (exists l2', l2 = l2' ++ [x] /\ l = l1 ++ e :: l2').
Proof.
  destruct l2 as [|y l2 _] using rev_ind.
  - intros Heq. left. apply (app_inj_tail l l1 x e) in Heq as [-> ->]. done.
  - intros Heq. right. exists l2.
    rewrite app_comm_cons, app_assoc in Heq.
    apply app_inj_tail in Heq as [-> ->]. done.
Qed.

Lemma log_ordered_snoc l x :
  log_ordered l ->
  (is_intake x = false -> exists e', e' ∈ l /\ needs x e' = true) ->
  log_ordered (l ++ [x]).
Proof.
  intros Hl Hx l1 e l2 Heq He.
  destruct (snoc_split _ _ _ _ _ Heq) as [(-> & -> & ->)|(l2' & -> & ->)].
  - by apply Hx.
  - by apply (Hl l1 e l2').
Qed.

Lemma OrderInv_genesis o : OrderInv (genesis o).
Proof.
  split; simpl; try done.
  - intros k Hk. lia.
  - intros l1 e l2 Heq. by destruct l1.
Qed.

Lemma OrderInv_commit toks ids w w' :
  Inv toks ids w -> LedgerInv w -> OrderInv w -> Commit w w' -> OrderInv w'.
Proof.
  intros HI HL [Oal Otok Oord] HC.
  destruct HC as [a s ts Hle newId|dataId reqId o Hnz Hcall|requestId text dataId Hnz Hun
                 |payload ts Hle newId|alertId reqId o Hnz Hcall|requestId Hnz];
    split; simpl.
  - intros k Hk. destruct (Oal k Hk) as [ts' ?]. exists ts'. apply elem_of_snoc. by left.
  - intros t a' Hta. apply elem_of_snoc. left. by apply (Otok t).
  - apply log_ordered_snoc; [done|]. done.
  - intros k Hk. destruct (Oal k Hk) as [ts' ?]. exists ts'. apply elem_of_snoc. by left.
  - intros t a' Hta. apply elem_of_snoc. left. by apply (Otok t).
  - apply log_ordered_snoc; [done|]. intros _.
    pose proof (Inv_record_range _ _ _ _ HI Hnz) as Hd.
    exists (SensorDataSubmitted dataId (sd_timestamp (sload (sensorDatas (storage w)) dataId))).
    split; [by apply (linv_submitted _ HL)|]. simpl. apply N.eqb_refl.
  - intros k Hk. destruct (Oal k Hk) as [ts' ?]. exists ts'. apply elem_of_snoc. by left.
  - intros t a' Hta. apply elem_of_snoc. left. by apply (Otok t).
  - apply log_ordered_snoc; [done|]. intros _.
    exists (AnomalyDetectionRequested dataId). split; [|simpl; apply N.eqb_refl].
    apply (linv_token_requested _ HL requestId). by apply sload_N_lookup.
  - intros k Hk. destruct (decide (k = newId)) as [->|Hne].
    + exists ts. apply elem_of_snoc. by right.
    + destruct (Oal k) as [ts' ?]; [unfold newId in *; lia|].
      exists ts'. apply elem_of_snoc. by left.
  - intros t a' Hta. apply elem_of_snoc. left. by apply (Otok t).
  - apply log_ordered_snoc; [done|]. done.
  - intros k Hk. destruct (Oal k Hk) as [ts' ?]. exists ts'. apply elem_of_snoc. by left.
  - intros t a' Hta. apply elem_of_snoc.
    destruct (decide (reqId = t)) as [<-|Hne].
    + rewrite lookup_insert_eq in Hta. injection Hta as <-. by right.
    + rewrite lookup_insert_ne in Hta by done. left. by apply (Otok t).
  - apply log_ordered_snoc; [done|]. intros _.
    destruct (Oal alertId (LedgerInv_alert_range _ _ HL Hnz)) as [ts' Hts'].
    exists (EncryptedAlertSubmitted alertId ts'). split; [done|]. simpl. apply N.eqb_refl.
  - intros k Hk. destruct (Oal k Hk) as [ts' ?]. exists ts'. apply elem_of_snoc. by left.
  - intros t a' Hta. apply elem_of_snoc. left. by apply (Otok t).
  - apply log_ordered_snoc; [done|]. intros _.
    exists (AlertDecryptionRequested (sload (requestToAlertId (storage w)) requestId)).
    split; [|simpl; apply N.eqb_refl].
    apply (Otok requestId). by apply sload_N_lookup.
Qed.

Lemma OrderInv_run txs : forall toks ids w,
  Inv toks ids w -> LedgerInv w -> OrderInv w -> OrderInv (run txs w).
Proof.
  induction txs as [|[ctx c] txs IH]; intros toks ids w HI HL HO; simpl; [done|].
  apply (IH _ _ _ (Inv_step _ _ _ ctx c HI) (LedgerInv_step _ _ _ ctx c HI HL)).
  destruct (transact_cases ctx c w) as [->|HC]; [done|].
  by apply (OrderInv_commit toks ids w).
Qed.

Lemma reachable_OrderInv w : reachable w -> OrderInv w.
Proof.
  intros (o & txs & <-).
  apply (OrderInv_run txs [] [] (genesis o) (Inv_genesis o) (LedgerInv_genesis o)
           (OrderInv_genesis o)).
Qed.

End LogOrder.

(** ** What reachable worlds look like *)

Section ReachableWorlds.
Context `{F : FHEVM}.

(** X2.  In a reachable world an outcome that is not handled is still the
    initial one: [getDecryptedEvent] returns either [("", false)] or a pair
    whose flag is set, and for every id outside [1..sensorDataCount] it
    returns [("", false)]. *)
Theorem unhandled_outcome_is_initial w :
  reachable w ->
  forall id,
    ((getDecryptedEvent id w).2 = false -> getDecryptedEvent id w = (""%string, false))
    /\ (~ (1 <= id <= sensorDataCount (storage w)) ->
        getDecryptedEvent id w = (""%string, false)).
Proof.
  intros Hreach id.
  destruct (reachable_Inv _ Hreach) as (toks & ids & HI).
  pose proof (reachable_LedgerInv _ Hreach) as HL.
  unfold getDecryptedEvent. simpl. split.
  - intros Hun. by rewrite (linv_summary _ HL id Hun), Hun.
  - intros Hout. rewrite (sload_None _ _ (inv_event_out _ _ _ HI id ltac:(lia))). done.
Qed.

(** X3.  In a reachable world the log holds exactly one [AnomalyDetected]
    notification for every handled record and none for any other id. *)
Theorem result_notified_exactly_once w :
  reachable w ->
  forall id,
    detections id (logs w) = if (getDecryptedEvent id w).2 then 1%nat else 0%nat.
Proof.
  intros Hreach id. apply (linv_detected _ (reachable_LedgerInv _ Hreach)).
Qed.

(** X4.  In a reachable world the submission notifications mirror the record
    store: [SensorDataSubmitted id ts] is in the log exactly when [id] lies in
    [1..sensorDataCount] and [ts] is the timestamp stored with record [id],
    and the number of such notifications is the record counter. *)
Theorem submission_log_matches_store w :
  reachable w ->
  (forall id ts,
     SensorDataSubmitted id ts ∈ logs w <->
     1 <= id <= sensorDataCount (storage w)
     /\ sd_timestamp (sload (sensorDatas (storage w)) id) = ts)
  /\ N.of_nat (submission_count (logs w)) = sensorDataCount (storage w).
Proof.
  intros Hreach. pose proof (reachable_LedgerInv _ Hreach) as HL.
  split; [apply (linv_submitted _ HL)|apply (linv_submission_count _ HL)].
Qed.

(** X5.  In a reachable world every notification in the log carries an id
    its counter has handed out (record events an id in [1..sensorDataCount],
    alert events an id in [1..alertCount]), and the log is ordered: a request
    notification comes after the submission notification of the same id, and
    a result or alert-decrypted notification after a request notification of
    the same id. *)
Theorem notifications_follow_the_lifecycle w :
  reachable w ->
  (forall e, e ∈ logs w -> event_in_range (storage w) e)
  /\ log_ordered (logs w)
  /\ (forall id, (getDecryptedEvent id w).2 = true ->
        AnomalyDetectionRequested id ∈ logs w
        /\ exists ts, SensorDataSubmitted id ts ∈ logs w).
Proof.
  intros Hreach. pose proof (reachable_LedgerInv _ Hreach) as HL.
  split; [apply (linv_events _ HL)|]. split; [apply (reachable_OrderInv _ Hreach)|].
  intros id Hh. pose proof (linv_handled_requested _ HL id Hh) as Hreq.
  split; [done|].
  pose proof (linv_events _ HL _ Hreq) as Hin. simpl in Hin.
  eexists. by apply (linv_submitted _ HL).
Qed.

End ReachableWorlds.

(** ** What transactions keep *)

Section Frames.
Context `{F : FHEVM}.

Lemma call_ok_commit ctx c w w' : call ctx c w = Ok w' -> Commit w w'.
Proof.
  unfold call. destruct c as [a s|d|t cl p|pl|al|t cl p].
  - destruct (N.le_gt_cases (sensorDataCount (storage w) + 1) max_uint256) as [Hle|Hgt].
    + rewrite submitEncryptedSensorData_ok by done. intros [= <-]. by apply commit_record.
    + by rewrite submitEncryptedSensorData_overflow.
  - rewrite requestAnomalyDetection_cases. cbv zeta.
    destruct (N.eqb_spec (sd_id (sload (sensorDatas (storage w)) d)) 0) as [|Hnz]; [done|].
    intros [= <-]. apply commit_request; [done|]. unfold anomalyToken.
    by destruct (requestDecryption _ _ _).
  - rewrite handleAnomalyResult_cases. cbv zeta.
    destruct (N.eqb_spec (sload (requestToDataId (storage w)) t) 0) as [|Hnz]; [done|].
    destruct (isHandled _) eqn:Hh; [done|].
    destruct (negb _); [done|].
    destruct (abi_decode_strings cl) as [results|]; [|done].
    intros [= <-]. by apply commit_result.
  - destruct (N.le_gt_cases (alertCount (storage w) + 1) max_uint256) as [Hle|Hgt].
    + rewrite submitEncryptedAlert_ok by done. intros [= <-]. by apply commit_alert.
    + by rewrite submitEncryptedAlert_overflow.
  - rewrite requestAlertDecryption_cases. cbv zeta.
    destruct (N.eqb_spec (al_id (sload (encryptedAlerts (storage w)) al)) 0) as [|Hnz];
      [done|].
    intros [= <-]. apply commit_alert_request; [done|]. unfold alertToken.
    by destruct (requestDecryption _ _ _).
  - rewrite handleAlertCleartext_cases. cbv zeta.
    destruct (N.eqb_spec (sload (requestToAlertId (storage w)) t) 0) as [|Hnz]; [done|].
    destruct (negb _); [done|].
    destruct (abi_decode_string cl); [|done].
    intros [= <-]. by apply commit_alert_result.
Qed.

Lemma Commit_keeps w w' :
  Commit w w' ->
  sensorDataCount (storage w) <= sensorDataCount (storage w')
  /\ alertCount (storage w) <= alertCount (storage w')
  /\ (forall k, k <= sensorDataCount (storage w) ->
        sensorDatas (storage w') !! k = sensorDatas (storage w) !! k)
  /\ (forall k, k <= alertCount (storage w) ->
        encryptedAlerts (storage w') !! k = encryptedAlerts (storage w) !! k)
  /\ exists e, logs w' = logs w ++ [e].
Proof.
  intros [a s ts Hle newId|dataId reqId o Hnz Hcall|requestId text dataId Hnz Hun
         |payload ts Hle newId|alertId reqId o Hnz Hcall|requestId Hnz]; simpl;
    repeat split; try lia; try done; try (by eexists).
  - intros k Hk. unfold newId. rewrite lookup_insert_ne by lia. done.
  - intros k Hk. unfold newId. rewrite lookup_insert_ne by lia. done.
Qed.

(** Along any trace the counters never decrease and the entries under the
    ids handed out so far stay as they are. *)
Lemma run_keeps_entries txs : forall w,
  sensorDataCount (storage w) <= sensorDataCount (storage (run txs w))
  /\ alertCount (storage w) <= alertCount (storage (run txs w))
  /\ (forall id, id <= sensorDataCount (storage w) ->
        sensorDatas (storage (run txs w)) !! id = sensorDatas (storage w) !! id
        /\ sload (sensorDatas (storage (run txs w))) id
           = sload (sensorDatas (storage w)) id)
  /\ (forall id, id <= alertCount (storage w) ->
        encryptedAlerts (storage (run txs w)) !! id = encryptedAlerts (storage w) !! id
        /\ sload (encryptedAlerts (storage (run txs w))) id
           = sload (encryptedAlerts (storage w)) id).
Proof.
  induction txs as [|[ctx c] txs IH]; intros w; simpl.
  - repeat split; done.
  - destruct (IH (transact ctx c w)) as (I1 & I2 & I3 & I4).
    assert (Hstep : sensorDataCount (storage w) <= sensorDataCount (storage (transact ctx c w))
      /\ alertCount (storage w) <= alertCount (storage (transact ctx c w))
      /\ (forall k, k <= sensorDataCount (storage w) ->
            sensorDatas (storage (transact ctx c w)) !! k = sensorDatas (storage w) !! k)
      /\ (forall k, k <= alertCount (storage w) ->
            encryptedAlerts (storage (transact ctx c w)) !! k
            = encryptedAlerts (storage w) !! k)).
    { destruct (transact_cases ctx c w) as [->|HC]; [repeat split; done|].
      destruct (Commit_keeps _ _ HC) as (? & ? & ? & ? & _). done. }
    destruct Hstep as (S1 & S2 & S3 & S4).
    split; [lia|]. split; [lia|]. split.
    + intros id Hid. destruct (I3 id ltac:(lia)) as [E1 E2].
      unfold sload in *. rewrite E1, (S3 id Hid). done.
    + intros id Hid. destruct (I4 id ltac:(lia)) as [E1 E2].
      unfold sload in *. rewrite E1, (S4 id Hid). done.
Qed.

(** X6.  Stored entries are never modified or removed: along any trace the
    two counters never decrease, every record stored under an id up to the
    record counter and every alert stored under an id up to the alert counter
    stay exactly as they are. *)
Theorem stored_entries_immutable txs : forall w,
  sensorDataCount (storage w) <= sensorDataCount (storage (run txs w))
  /\ alertCount (storage w) <= alertCount (storage (run txs w))
  /\ (forall id, id <= sensorDataCount (storage w) ->
        sensorDatas (storage (run txs w)) !! id = sensorDatas (storage w) !! id
        /\ sload (sensorDatas (storage (run txs w))) id
           = sload (sensorDatas (storage w)) id)
  /\ (forall id, id <= alertCount (storage w) ->
        encryptedAlerts (storage (run txs w)) !! id = encryptedAlerts (storage w) !! id
        /\ sload (encryptedAlerts (storage (run txs w))) id
           = sload (encryptedAlerts (storage w)) id).
Proof. exact (run_keeps_entries txs). Qed.

(** In the model, where the log holds the events the contract declares, a
    committed call appends one event and a trace at most one per call. *)
Lemma run_log_extends :
  (forall ctx c w w', call ctx c w = Ok w' -> exists e, logs w' = logs w ++ [e])
  /\ (forall txs w, exists l,
        logs (run txs w) = logs w ++ l /\ (length l <= length txs)%nat).
Proof.
  split.
  - intros ctx c w w' Hok. by apply (Commit_keeps _ _ (call_ok_commit _ _ _ _ Hok)).
  - induction txs as [|[ctx c] txs IH]; intros w; simpl.
    + exists []. by rewrite app_nil_r.
    + destruct (IH (transact ctx c w)) as (l & Hl & Hlen). rewrite Hl.
      destruct (transact_cases ctx c w) as [->|HC].
      * exists l. split; [done|lia].
      * destruct (Commit_keeps _ _ HC) as (_ & _ & _ & _ & e & ->).
        exists (e :: l). rewrite <- app_assoc. simpl. split; [done|lia].
Qed.

Lemma token_stable_step ctx c w t :
  (t ∉ issued ctx c w ->
   requestToDataId (storage (transact ctx c w)) !! t = requestToDataId (storage w) !! t)
  /\ (t ∉ issued_alert ctx c w ->
      requestToAlertId (storage (transact ctx c w)) !! t
      = requestToAlertId (storage w) !! t).
Proof.
  unfold transact, call, issued, issued_alert.
  destruct c as [a s|d|t' cl p|pl|al|t' cl p].
  - unfold submitEncryptedSensorData, checked_add. by destruct (_ <=? _).
  - rewrite requestAnomalyDetection_cases. cbv zeta.
    destruct (_ =? 0); [done|]. split; [|done].
    intros Ht. cbn [storage set_requestToDataId requestToDataId].
    rewrite lookup_insert_ne; [done|]. intros E. apply Ht. rewrite E.
    by apply list_elem_of_singleton.
  - rewrite handleAnomalyResult_cases. cbv zeta.
    destruct (_ =? 0); [done|]. destruct (isHandled _); [done|].
    destruct (negb _); [done|]. by destruct (abi_decode_strings cl).
  - unfold submitEncryptedAlert, checked_add. by destruct (_ <=? _).
  - rewrite requestAlertDecryption_cases. cbv zeta.
    destruct (_ =? 0); [done|]. split; [done|].
    intros Ht. cbn [storage set_requestToAlertId requestToAlertId].
    rewrite lookup_insert_ne; [done|]. intros E. apply Ht. rewrite E.
    by apply list_elem_of_singleton.
  - rewrite handleAlertCleartext_cases. cbv zeta.
    destruct (_ =? 0); [done|]. destruct (negb _); [done|].
    by destruct (abi_decode_string cl).
Qed.

(** A trace changes a correlation entry only through a request that obtains
    its token. *)
Lemma run_token_stable txs : forall w t,
  (t ∉ issued_tokens txs w ->
   requestToDataId (storage (run txs w)) !! t = requestToDataId (storage w) !! t)
  /\ (t ∉ issued_alert_tokens txs w ->
      requestToAlertId (storage (run txs w)) !! t = requestToAlertId (storage w) !! t).
Proof.
  induction txs as [|[ctx c] txs IH]; intros w t; simpl; [done|].
  destruct (IH (transact ctx c w) t) as [I1 I2].
  destruct (token_stable_step ctx c w t) as [S1 S2].
  split; intros Ht; apply not_elem_of_app in Ht as [Hhd Htl].
  - by rewrite (I1 Htl), (S1 Hhd).
  - by rewrite (I2 Htl), (S2 Hhd).
Qed.

(** X8.  A correlation entry changes only when the library hands its token
    out again: along any trace, a token that no committed
    [requestAnomalyDetection] of the trace obtained resolves to the record it
    resolved to before, and likewise for the alert correlation map and
    [requestAlertDecryption]. *)
Theorem token_resolution_stable txs : forall w t,
  (t ∉ issued_tokens txs w ->
   requestToDataId (storage (run txs w)) !! t = requestToDataId (storage w) !! t)
  /\ (t ∉ issued_alert_tokens txs w ->
      requestToAlertId (storage (run txs w)) !! t = requestToAlertId (storage w) !! t).
Proof. exact (run_token_stable txs). Qed.

(** X9.  In the world reached by any trace from the initial state, an alert
    callback whose token was not issued to any committed
    [requestAlertDecryption] of that trace resolves to the sentinel 0, fails
    with [InvalidRequest] and leaves the world unchanged; tokens issued for
    anomaly requests only are among those. *)
Theorem unknown_alert_token_rejected o txs ctx t cl p :
  let w := run txs (genesis o) in
  t ∉ issued_alert_tokens txs (genesis o) ->
  sload (requestToAlertId (storage w)) t = 0
  /\ handleAlertCleartext ctx t cl p w = Revert InvalidRequest
  /\ transact ctx (HandleAlertCleartext t cl p) w = w.
Proof.
  intros w Hfresh.
  assert (Hz : sload (requestToAlertId (storage w)) t = 0).
  { unfold sload, w.
    by rewrite (proj2 (run_token_stable txs (genesis o) t) Hfresh). }
  assert (Hres : handleAlertCleartext ctx t cl p w = Revert InvalidRequest).
  { rewrite handleAlertCleartext_cases. cbv zeta. by rewrite Hz. }
  split; [exact Hz|]. split; [exact Hres|].
  exact (transact_revert ctx (HandleAlertCleartext t cl p) w _ Hres).
Qed.

(** What a call of one path leaves untouched on the other. *)
Lemma transact_sides_frame w ctx c :
  let w' := transact ctx c w in
  (alert_side c = false ->
     alertCount (storage w') = alertCount (storage w)
     /\ encryptedAlerts (storage w') = encryptedAlerts (storage w)
     /\ requestToAlertId (storage w') = requestToAlertId (storage w))
  /\ (alert_side c = true ->
     sensorDataCount (storage w') = sensorDataCount (storage w)
     /\ sensorDatas (storage w') = sensorDatas (storage w)
     /\ decryptedEvents (storage w') = decryptedEvents (storage w)
     /\ requestToDataId (storage w') = requestToDataId (storage w))
  /\ ((forall id, c <> RequestAnomalyDetection id) ->
      (forall id, c <> RequestAlertDecryption id) ->
      oracle w' = oracle w).
Proof.
  unfold transact, call. destruct c as [a s|d|t cl p|pl|al|t cl p]; simpl.
  - unfold submitEncryptedSensorData, checked_add. by destruct (_ <=? _).
  - rewrite requestAnomalyDetection_cases. cbv zeta.
    destruct (_ =? 0); simpl; (split; [done|]); (split; [done|]);
      intros Hne; by destruct (Hne d).
  - rewrite handleAnomalyResult_cases. cbv zeta.
    destruct (_ =? 0); [done|]. destruct (isHandled _); [done|].
    destruct (negb _); [done|]. by destruct (abi_decode_strings cl).
  - unfold submitEncryptedAlert, checked_add. by destruct (_ <=? _).
  - rewrite requestAlertDecryption_cases. cbv zeta.
    destruct (_ =? 0); simpl; (split; [done|]); (split; [done|]);
      intros _ Hne; by destruct (Hne al).
  - rewrite handleAlertCleartext_cases. cbv zeta.
    destruct (_ =? 0); [done|]. destruct (negb _); [done|].
    by destruct (abi_decode_string cl).
Qed.

(** X10.  The record path and the alert path do not touch each other's
    storage: a record-side call leaves the alert counter, the alert store and
    the alert correlation map as they were, and an alert-side call leaves the
    record counter, the record store, the outcomes and the record correlation
    map as they were; neither a submission nor a callback changes the
    library's state. *)
Theorem record_and_alert_sides_are_separate w ctx c :
  let w' := transact ctx c w in
  (alert_side c = false ->
     alertCount (storage w') = alertCount (storage w)
     /\ encryptedAlerts (storage w') = encryptedAlerts (storage w)
     /\ requestToAlertId (storage w') = requestToAlertId (storage w))
  /\ (alert_side c = true ->
     sensorDataCount (storage w') = sensorDataCount (storage w)
     /\ sensorDatas (storage w') = sensorDatas (storage w)
     /\ decryptedEvents (storage w') = decryptedEvents (storage w)
     /\ requestToDataId (storage w') = requestToDataId (storage w))
  /\ ((forall id, c <> RequestAnomalyDetection id) ->
      (forall id, c <> RequestAlertDecryption id) ->
      oracle w' = oracle w).
Proof. exact (transact_sides_frame w ctx c). Qed.

End Frames.

(** ** Intake and requests over traces *)

Section IntakeOverTraces.
Context `{F : FHEVM}.

(** X12.  In a reachable world a submission can fail in one way only: it
    reverts with [Overflow] when its counter has reached [2^256 - 1], and
    commits otherwise, whatever the handles, the timestamp and the caller.
    This holds for records and for alerts. *)
Theorem submissions_fail_only_on_overflow w :
  reachable w ->
  forall ctx a s p,
    (forall f, submitEncryptedSensorData ctx a s w = Revert f ->
       f = Overflow /\ sensorDataCount (storage w) = max_uint256)
    /\ (sensorDataCount (storage w) < max_uint256 ->
        exists w', submitEncryptedSensorData ctx a s w = Ok w')
    /\ (forall f, submitEncryptedAlert ctx p w = Revert f ->
       f = Overflow /\ alertCount (storage w) = max_uint256)
    /\ (alertCount (storage w) < max_uint256 ->
        exists w', submitEncryptedAlert ctx p w = Ok w')
    /\ (sensorDataCount (storage w) = max_uint256 ->
        submitEncryptedSensorData ctx a s w = Revert Overflow)
    /\ (alertCount (storage w) = max_uint256 ->
        submitEncryptedAlert ctx p w = Revert Overflow).
Proof.
  intros Hreach ctx a s p.
  destruct (reachable_Inv _ Hreach) as (toks & ids & HI).
  pose proof (inv_count _ _ _ HI) as Hc.
  pose proof (linv_alert_count _ (reachable_LedgerInv _ Hreach)) as Ha.
  split; [|split; [|split; [|split; [|split]]]].
  - intros f.
    destruct (N.le_gt_cases (sensorDataCount (storage w) + 1) max_uint256) as [Hle|Hgt].
    + by rewrite submitEncryptedSensorData_ok.
    + rewrite submitEncryptedSensorData_overflow by done. intros [= <-]. split; [done|lia].
  - intros Hlt. rewrite submitEncryptedSensorData_ok by lia. by eexists.
  - intros f.
    destruct (N.le_gt_cases (alertCount (storage w) + 1) max_uint256) as [Hle|Hgt].
    + by rewrite submitEncryptedAlert_ok.
    + rewrite submitEncryptedAlert_overflow by done. intros [= <-]. split; [done|lia].
  - intros Hlt. rewrite submitEncryptedAlert_ok by lia. by eexists.
  - intros Hmax. apply submitEncryptedSensorData_overflow. lia.
  - intros Hmax. apply submitEncryptedAlert_overflow. lia.
Qed.

Lemma alert_submissions_app l1 l2 :
  alert_submissions (l1 ++ l2) = alert_submissions l1 ++ alert_submissions l2.
Proof. unfold alert_submissions. apply map_app. Qed.

Lemma run_alert_submissions subs : forall w,
  alertCount (storage w) + N.of_nat (length subs) <= max_uint256 ->
  alertCount (storage (run (alert_submissions subs) w))
  = alertCount (storage w) + N.of_nat (length subs).
Proof.
  induction subs as [|[ctx p] subs IH]; intros w Hfit.
  - simpl. lia.
  - cbn [length] in Hfit.
    assert (Hle : alertCount (storage w) + 1 <= max_uint256) by lia.
    cbn [alert_submissions map run fst snd]. fold (alert_submissions subs).
    unfold transact, call. rewrite (submitEncryptedAlert_ok ctx p w Hle). cbv zeta.
    rewrite IH; simpl; lia.
Qed.

(** A trace of alert-side calls leaves the record side of the storage as it
    was. *)
Lemma alert_trace_frame txs : forall w,
  Forall (fun tx => alert_side tx.2 = true) txs ->
  sensorDataCount (storage (run txs w)) = sensorDataCount (storage w)
  /\ sensorDatas (storage (run txs w)) = sensorDatas (storage w)
  /\ decryptedEvents (storage (run txs w)) = decryptedEvents (storage w)
  /\ requestToDataId (storage (run txs w)) = requestToDataId (storage w).
Proof.
  induction txs as [|[ctx c] txs IH]; intros w Hall; simpl; [done|].
  apply Forall_cons in Hall as [Hc Hall]. simpl in Hc.
  destruct (IH (transact ctx c w) Hall) as (-> & -> & -> & ->).
  by apply (transact_sides_frame w ctx c).
Qed.

(** X13.  From the initial state, [N] alert submissions (with [N] within the
    range of the [uint256] counter) leave the alert counter at [N]; the
    [n+1]-st one is stored under id [n+1] with its payload and timestamp and
    announced with that id and timestamp; and no outcome, record or record
    correlation entry is created on the way. *)
Theorem alert_submissions_assign_dense_ids o subs :
  N.of_nat (length subs) <= max_uint256 ->
  let w_end := run (alert_submissions subs) (genesis o) in
  alertCount (storage w_end) = N.of_nat (length subs)
  /\ (forall n ctx p, subs !! n = Some (ctx, p) ->
        let id := N.of_nat (S n) in
        sload (encryptedAlerts (storage w_end)) id = mkAlert id p (block_timestamp ctx)
        /\ EncryptedAlertSubmitted id (block_timestamp ctx) ∈ logs w_end)
  /\ sensorDataCount (storage w_end) = 0
  /\ sensorDatas (storage w_end) = ∅
  /\ decryptedEvents (storage w_end) = ∅
  /\ requestToDataId (storage w_end) = ∅.
Proof.
  intros Hfit w_end. split; [|split].
  - unfold w_end. rewrite run_alert_submissions; simpl; lia.
  - intros n ctx p Hn id.
    pose proof (lookup_lt_Some _ _ _ Hn) as Hlt.
    set (w_before := run (alert_submissions (take n subs)) (genesis o)).
    set (w_after := transact ctx (SubmitEncryptedAlert p) w_before).
    assert (Hend : w_end = run (alert_submissions (drop (S n) subs)) w_after).
    { unfold w_end, w_after, w_before.
      rewrite <- (take_drop (S n) subs) at 1.
      rewrite alert_submissions_app, run_app, (take_S_r _ _ _ Hn).
      by rewrite alert_submissions_app, run_app. }
    assert (Hcount : alertCount (storage w_before) = N.of_nat n).
    { unfold w_before. rewrite run_alert_submissions; rewrite length_take; simpl; lia. }
    assert (Hle : alertCount (storage w_before) + 1 <= max_uint256)
      by (rewrite Hcount; lia).
    assert (Hafter : w_after = mkWorld
              (set_encryptedAlerts
                 (<[id := mkAlert id p (block_timestamp ctx)]>
                    (encryptedAlerts (storage w_before)))
                 (set_alertCount id (storage w_before)))
              (oracle w_before)
              (logs w_before ++ [EncryptedAlertSubmitted id (block_timestamp ctx)])).
    { unfold w_after, transact, call.
      rewrite (submitEncryptedAlert_ok ctx p w_before Hle). cbv zeta.
      replace (alertCount (storage w_before) + 1) with id
        by (rewrite Hcount; unfold id; lia). done. }
    destruct (run_keeps_entries (alert_submissions (drop (S n) subs)) w_after)
      as (_ & _ & _ & Hkeep).
    destruct (proj2 run_log_extends (alert_submissions (drop (S n) subs)) w_after)
      as (l & Hlog & _).
    rewrite <- Hend in Hkeep, Hlog. split.
    + destruct (Hkeep id) as [_ ->]; [rewrite Hafter; simpl; lia|].
      rewrite Hafter. simpl. by rewrite sload_insert_eq.
    + rewrite Hlog, Hafter. simpl. rewrite !elem_of_app, list_elem_of_singleton.
      left. by right.
  - apply (alert_trace_frame (alert_submissions subs) (genesis o)).
    unfold alert_submissions. apply Forall_map. by apply Forall_true.
Qed.

End IntakeOverTraces.

(** ** The dashboard statistics *)

Module DashboardFacts.
Import Dashboard.

Lemma type_counts_add_up (records : list HealthRecord) :
  (activityCount records + sleepCount records + alertCount records
   = totalRecords records)%nat.
Proof.
  unfold activityCount, sleepCount, alertCount, totalRecords.
  induction records as [|r records IH]; [done|].
  rewrite !filter_cons. destruct r as [? [] ? ? ? ?]; simpl;
    repeat case_decide; try done; simpl; lia.
Qed.

Lemma status_counts_add_up (records : list HealthRecord) :
  (abnormalCount records + length (filter (fun r => status r = normal) records)
   = length records)%nat.
Proof.
  unfold abnormalCount.
  induction records as [|r records IH]; [done|].
  rewrite !filter_cons. destruct r as [? ? ? ? [] ?]; simpl;
    repeat case_decide; try done; simpl; lia.
Qed.

(** X14.  The statistics of the dashboard partition the loaded records: the
    activity, sleep and alert counts add up to the total, and the abnormal
    count is at most the total.  The legend of the chart shows the number of
    records that are not abnormal when there is at least one record; for an
    empty list it shows one normal record although the total is zero. *)
Theorem statistics_partition (records : list HealthRecord) :
  (activityCount records + sleepCount records + alertCount records
   = totalRecords records)%nat
  /\ (abnormalCount records <= totalRecords records)%nat
  /\ (records <> [] ->
      legend_normal records
      = Z.of_nat (length (filter (fun r => status r = normal) records))
      /\ (legend_normal records + legend_abnormal records
          = Z.of_nat (totalRecords records))%Z)
  /\ (records = [] ->
      legend_normal records = 1%Z /\ legend_abnormal records = 0%Z
      /\ totalRecords records = 0%nat).
Proof.
  pose proof (type_counts_add_up records) as Htypes.
  pose proof (status_counts_add_up records) as Hstatus.
  split; [exact Htypes|]. split; [unfold totalRecords; lia|]. split.
  - intros Hne. unfold legend_normal, legend_abnormal, pie_total, totalRecords.
    destruct records as [|r records]; [done|]. simpl length in *. simpl Nat.eqb.
    cbv iota. lia.
  - intros ->. done.
Qed.

End DashboardFacts.

(** ** The further properties on the worked scenario *)

Lemma reachable_w_busy : reachable (F := Reference.fhevm) Reference.w_busy.
Proof. exists 0, Reference.busy_txs. unfold Reference.w_busy. exact eq_refl. Qed.

Lemma w_busy_counters :
  sensorDataCount (storage Reference.w_busy) = 1
  /\ alertCount (storage Reference.w_busy) = 1.
Proof. split; vm_compute; reflexivity. Qed.

(** X2 there: id 7 was never handed out. *)
Lemma unhandled_outcome_is_initial_witness :
  reachable (F := Reference.fhevm) Reference.w_busy
  /\ getDecryptedEvent (F := Reference.fhevm) 7 Reference.w_busy = (""%string, false).
Proof.
  split; [exact reachable_w_busy|].
  apply (proj2 (unhandled_outcome_is_initial (F := Reference.fhevm)
                  Reference.w_busy reachable_w_busy 7)).
  rewrite (proj1 w_busy_counters). lia.
Defined.

(** X3 there: one result notification for record 1, none for id 2. *)
Lemma result_notified_exactly_once_witness :
  reachable (F := Reference.fhevm) Reference.w_busy
  /\ detections 1 (logs Reference.w_busy) = 1%nat
  /\ detections 2 (logs Reference.w_busy) = 0%nat.
Proof.
  split; [exact reachable_w_busy|]. split.
  - rewrite (result_notified_exactly_once (F := Reference.fhevm)
               Reference.w_busy reachable_w_busy 1).
    vm_compute. reflexivity.
  - rewrite (result_notified_exactly_once (F := Reference.fhevm)
               Reference.w_busy reachable_w_busy 2).
    vm_compute. reflexivity.
Defined.

(** X4 there: record 1 was announced with the timestamp it is stored with. *)
Lemma submission_log_matches_store_witness :
  reachable (F := Reference.fhevm) Reference.w_busy
  /\ SensorDataSubmitted 1 1700000000 ∈ logs Reference.w_busy
  /\ N.of_nat (submission_count (logs Reference.w_busy)) = 1.
Proof.
  split; [exact reachable_w_busy|].
  destruct (submission_log_matches_store (F := Reference.fhevm)
              Reference.w_busy reachable_w_busy) as [Hlog Hcount].
  split.
  - apply Hlog. rewrite (proj1 w_busy_counters). split; [lia|].
    vm_compute. reflexivity.
  - etrans; [exact Hcount|]. exact (proj1 w_busy_counters).
Defined.

(** X5 there: the six notifications of the scenario are in lifecycle
    order. *)
Lemma notifications_follow_the_lifecycle_witness :
  reachable (F := Reference.fhevm) Reference.w_busy
  /\ log_ordered
       [SensorDataSubmitted 1 1700000000; EncryptedAlertSubmitted 1 1700000060;
        AnomalyDetectionRequested 1; AlertDecryptionRequested 1;
        AnomalyDetected 1; AlertDecrypted 1].
Proof.
  split; [exact reachable_w_busy|].
  exact (proj1 (proj2 (notifications_follow_the_lifecycle (F := Reference.fhevm)
                         Reference.w_busy reachable_w_busy))).
Defined.

(** X9 there: token 0 was issued for the anomaly request only, and the
    alert callback refuses it. *)
Lemma unknown_alert_token_rejected_witness :
  (0 ∉ issued_alert_tokens (F := Reference.fhevm) Reference.busy_txs
         (genesis (F := Reference.fhevm) 0))
  /\ handleAlertCleartext (F := Reference.fhevm) Reference.ctx0 0
       Reference.alert_cleartexts (Reference.digest 0 Reference.alert_cleartexts)
       Reference.w_busy = Revert InvalidRequest.
Proof.
  assert (Hfresh : 0 ∉ issued_alert_tokens (F := Reference.fhevm) Reference.busy_txs
                         (genesis (F := Reference.fhevm) 0)).
  { vm_compute. intros Hin. apply list_elem_of_singleton in Hin. discriminate Hin. }
  split; [exact Hfresh|].
  exact (proj1 (proj2 (unknown_alert_token_rejected (F := Reference.fhevm) 0
           Reference.busy_txs Reference.ctx0 0 Reference.alert_cleartexts
           (Reference.digest 0 Reference.alert_cleartexts) Hfresh))).
Defined.

(** X12 there: both counters are far from their bound, so both submissions
    commit. *)
Lemma submissions_fail_only_on_overflow_witness :
  reachable (F := Reference.fhevm) Reference.w_busy
  /\ (exists w', submitEncryptedSensorData (F := Reference.fhevm) Reference.ctx0 5 6
                   Reference.w_busy = Ok w')
  /\ (exists w', submitEncryptedAlert (F := Reference.fhevm) Reference.ctx0 7
                   Reference.w_busy = Ok w').
Proof.
  split; [exact reachable_w_busy|].
  destruct (submissions_fail_only_on_overflow (F := Reference.fhevm)
              Reference.w_busy reachable_w_busy Reference.ctx0 5 6 7)
    as (_ & Hrec & _ & Hal & _).
  destruct w_busy_counters as [Hc Ha].
  split; [apply Hrec; rewrite Hc|apply Hal; rewrite Ha]; vm_compute; reflexivity.
Defined.

(** X13 on two alert submissions: the second is stored under id 2. *)
Lemma alert_submissions_assign_dense_ids_witness :
  let subs := [(Reference.ctx0, 7); (mkCtx 1700000060 42, 8)] in
  N.of_nat (length subs) <= max_uint256
  /\ alertCount (storage (run (F := Reference.fhevm) (alert_submissions subs)
                            (genesis (F := Reference.fhevm) 0))) = 2
  /\ sload (encryptedAlerts (storage (run (F := Reference.fhevm)
              (alert_submissions subs) (genesis (F := Reference.fhevm) 0)))) 2
     = mkAlert 2 8 1700000060.
Proof.
  intros subs.
  assert (Hfit : N.of_nat (length subs) <= max_uint256) by (vm_compute; discriminate).
  destruct (alert_submissions_assign_dense_ids (F := Reference.fhevm) 0 subs Hfit)
    as (Hcount & Hstored & _).
  split; [exact Hfit|]. split; [exact Hcount|].
  exact (proj1 (Hstored 1%nat (mkCtx 1700000060 42) 8 eq_refl)).
Defined.

(** ** Requests against a library that can refuse *)

Section RefusalFacts.
Context `{F : FHEVM}.
Variable accepts : Oracle -> list bytes32 -> selector -> bool.

(** With a library that accepts every request the two descriptions of the
    request functions agree. *)
Lemma requestAnomalyDetection_lib_accepting ctx dataId w :
  requestAnomalyDetection_lib (fun _ _ _ => true) ctx dataId w
  = of_result (requestAnomalyDetection ctx dataId w).
Proof.
  unfold requestAnomalyDetection_lib, requestAnomalyDetection, onlySource,
    try_requestDecryption.
  destruct (sd_id _ =? 0); simpl; [done|].
  by destruct (requestDecryption _ _ _).
Qed.

Lemma requestAlertDecryption_lib_accepting ctx alertId w :
  requestAlertDecryption_lib (fun _ _ _ => true) ctx alertId w
  = of_result (requestAlertDecryption ctx alertId w).
Proof.
  unfold requestAlertDecryption_lib, requestAlertDecryption, onlySource,
    try_requestDecryption.
  destruct (al_id _ =? 0); simpl; [done|].
  by destruct (requestDecryption _ _ _).
Qed.

(** A transaction against the refusing library either leaves the world as
    it was or does what it does when every request is accepted. *)
Lemma transact_lib_cases ctx c w :
  transact_lib accepts ctx c w = w
  \/ transact_lib accepts ctx c w = transact ctx c w.
Proof.
  unfold transact_lib, transact, call_lib.
  destruct c as [a s|d|t cl p|pl|al|t cl p]; simpl;
    try (right; by destruct (_ : result World)).
  - unfold requestAnomalyDetection_lib, requestAnomalyDetection, onlySource,
      try_requestDecryption.
    destruct (sd_id _ =? 0); simpl; [by left|].
    destruct (accepts _ _ _); [|by left].
    right. by destruct (requestDecryption _ _ _).
  - unfold requestAlertDecryption_lib, requestAlertDecryption, onlySource,
      try_requestDecryption.
    destruct (al_id _ =? 0); simpl; [by left|].
    destruct (accepts _ _ _); [|by left].
    right. by destruct (requestDecryption _ _ _).
Qed.

(** A run against the refusing library is a run of the accepted
    transactions. *)
Lemma run_lib_as_run txs : forall w,
  exists txs', run_lib accepts txs w = run txs' w.
Proof.
  induction txs as [|[ctx c] txs IH]; intros w; simpl.
  - by exists [].
  - destruct (transact_lib_cases ctx c w) as [-> | ->].
    + apply IH.
    + destruct (IH (transact ctx c w)) as [txs' ->]. by exists ((ctx, c) :: txs').
Qed.

Lemma reachable_lib_reachable w : reachable_lib accepts w -> reachable w.
Proof.
  intros (o & txs & <-). destruct (run_lib_as_run txs (genesis o)) as [txs' ->].
  by exists o, txs'.
Qed.

Lemma call_lib_commit ctx c w w' :
  call_lib accepts ctx c w = Committed w' -> Commit w w'.
Proof.
  unfold call_lib. destruct c as [a s|d|t cl p|pl|al|t cl p].
  1,3,4,6: (match goal with |- of_result ?r = _ -> _ =>
              destruct r as [w0|f] eqn:Hcall; simpl; [|done] end;
            intros [= <-]; exact (call_ok_commit _ _ _ _ Hcall)).
  - unfold requestAnomalyDetection_lib, try_requestDecryption.
    destruct (N.eqb_spec (sd_id (sload (sensorDatas (storage w)) d)) 0) as [|Hnz]; [done|].
    destruct (accepts _ _ _); [|done].
    destruct (requestDecryption _ _ _) as [reqId o] eqn:Hlib.
    intros [= <-]. by apply (commit_request w d reqId o).
  - unfold requestAlertDecryption_lib, try_requestDecryption.
    destruct (N.eqb_spec (al_id (sload (encryptedAlerts (storage w)) al)) 0) as [|Hnz];
      [done|].
    destruct (accepts _ _ _); [|done].
    destruct (requestDecryption _ _ _) as [reqId o] eqn:Hlib.
    intros [= <-]. by apply (commit_alert_request w al reqId o).
Qed.

End RefusalFacts.

Section RequestsAgainstTheLibrary.
Context `{F : FHEVM}.
Variable accepts : Oracle -> list bytes32 -> selector -> bool.


(** X1.  In a world reachable against a library that may refuse requests,
    the guards of the two request functions fail exactly outside the ids
    handed out: [requestAnomalyDetection] reverts with [DataNotFound] exactly
    for the ids outside [1..sensorDataCount] and [requestAlertDecryption]
    with [AlertNotFound] exactly for the ids outside [1..alertCount]; for an
    id in range the contract raises no failure of its own, and the request
    commits or reverts as the library decides. *)
Theorem request_guards_fail_exactly_outside_stored_ids w :
  reachable_lib accepts w ->
  forall ctx id,
    (requestAnomalyDetection_lib accepts ctx id w = Reverted DataNotFound
       <-> ~ (1 <= id <= sensorDataCount (storage w)))
    /\ (1 <= id <= sensorDataCount (storage w) ->
        requestAnomalyDetection_lib accepts ctx id w = LibraryReverted
        \/ exists w', requestAnomalyDetection_lib accepts ctx id w = Committed w')
    /\ (requestAlertDecryption_lib accepts ctx id w = Reverted AlertNotFound
       <-> ~ (1 <= id <= alertCount (storage w)))
    /\ (1 <= id <= alertCount (storage w) ->
        requestAlertDecryption_lib accepts ctx id w = LibraryReverted
        \/ exists w', requestAlertDecryption_lib accepts ctx id w = Committed w').
Proof.
  intros Hreach%reachable_lib_reachable ctx id.
  destruct (reachable_Inv _ Hreach) as (toks & ids & HI).
  pose proof (reachable_LedgerInv _ Hreach) as HL.
  assert (Hd : sd_id (sload (sensorDatas (storage w)) id) <> 0
               <-> 1 <= id <= sensorDataCount (storage w)).
  { split; [apply (Inv_record_range _ _ _ _ HI)|].
    intros Hin. rewrite (inv_data_in _ _ _ HI id Hin). lia. }
  assert (Ha : al_id (sload (encryptedAlerts (storage w)) id) <> 0
               <-> 1 <= id <= alertCount (storage w)).
  { split; [apply (LedgerInv_alert_range _ _ HL)|].
    intros Hin. rewrite (linv_alert_in _ HL id Hin). lia. }
  unfold requestAnomalyDetection_lib, requestAlertDecryption_lib, try_requestDecryption.
  split; [|split; [|split]].
  - destruct (N.eqb_spec (sd_id (sload (sensorDatas (storage w)) id)) 0) as [Hz|Hnz].
    + split; [|done]. intros _ Hin. by apply Hd in Hin.
    + split.
      * destruct (accepts _ _ _); [|done]. by destruct (requestDecryption _ _ _).
      * intros Hout. destruct Hout. by apply Hd.
  - intros Hin. apply Hd in Hin. rewrite <- (N.eqb_neq _ _) in Hin. rewrite Hin.
    destruct (accepts _ _ _); [|by left]. right.
    destruct (requestDecryption _ _ _). by eexists.
  - destruct (N.eqb_spec (al_id (sload (encryptedAlerts (storage w)) id)) 0) as [Hz|Hnz].
    + split; [|done]. intros _ Hin. by apply Ha in Hin.
    + split.
      * destruct (accepts _ _ _); [|done]. by destruct (requestDecryption _ _ _).
      * intros Hout. destruct Hout. by apply Ha.
  - intros Hin. apply Ha in Hin. rewrite <- (N.eqb_neq _ _) in Hin. rewrite Hin.
    destruct (accepts _ _ _); [|by left]. right.
    destruct (requestDecryption _ _ _). by eexists.
Qed.

(** X11.  A request hands the library exactly what was submitted: once a
    record has been stored with handles [(a, s)], then after any further
    trace [requestAnomalyDetection] for its id raises no failure of its own
    and asks the library to decrypt the list [[a; s]] with the anomaly
    callback selector; when the library refuses, the transaction reverts;
    when it accepts, the request commits, the request id the library returns
    for that list is mapped to the record's id, the library's state is the
    one it returns and the request notification is the last event of the
    log. *)
Theorem request_hands_library_the_submitted_handles w ctx a s w1 txs ctx' :
  submitEncryptedSensorData ctx a s w = Ok w1 ->
  let id := sensorDataCount (storage w1) in
  let w2 := run_lib accepts txs w1 in
  let r := requestDecryption (oracle w2) [a; s] handleAnomalyResult_selector in
  let outcome := requestAnomalyDetection_lib accepts ctx' id w2 in
  (forall f, outcome <> Reverted f)
  /\ (accepts (oracle w2) [a; s] handleAnomalyResult_selector = false ->
      outcome = LibraryReverted)
  /\ (accepts (oracle w2) [a; s] handleAnomalyResult_selector = true ->
      exists w',
        outcome = Committed w'
        /\ requestToDataId (storage w') = <[r.1 := id]> (requestToDataId (storage w2))
        /\ oracle w' = r.2
        /\ last (logs w') = Some (AnomalyDetectionRequested id)).
Proof.
  intros Hsub id w2 r outcome.
  pose proof (submitEncryptedSensorData_inv _ _ _ _ _ Hsub) as Hle.
  rewrite (submitEncryptedSensorData_ok ctx a s w Hle) in Hsub.
  cbv zeta in Hsub. injection Hsub as Hw1.
  assert (Hid : id = sensorDataCount (storage w) + 1) by (unfold id; by rewrite <- Hw1).
  assert (Hrec : sload (sensorDatas (storage w1)) id
                 = mkSensorData id a s (block_timestamp ctx)).
  { rewrite Hid, <- Hw1. simpl. by rewrite sload_insert_eq. }
  destruct (run_lib_as_run accepts txs w1) as [txs' Hrun]. fold w2 in Hrun.
  destruct (run_keeps_entries txs' w1) as (_ & _ & Hkeep & _).
  destruct (Hkeep id (N.le_refl _)) as [_ Hsame]. rewrite <- Hrun in Hsame.
  assert (Hshape : outcome =
    if accepts (oracle w2) [a; s] handleAnomalyResult_selector
    then Committed (mkWorld
           (set_requestToDataId (<[r.1 := id]> (requestToDataId (storage w2)))
              (storage w2))
           r.2 (logs w2 ++ [AnomalyDetectionRequested id]))
    else LibraryReverted).
  { unfold outcome, requestAnomalyDetection_lib, try_requestDecryption.
    rewrite Hsame, Hrec. simpl. unfold toBytes32. fold r.
    destruct (N.eqb_spec id 0) as [Hz|_]; [lia|].
    destruct (accepts _ _ _); [|done]. by destruct r. }
  split; [|split].
  - intros f. rewrite Hshape. by destruct (accepts _ _ _).
  - intros Hno. by rewrite Hshape, Hno.
  - intros Hyes. rewrite Hshape, Hyes. eexists. split; [reflexivity|]. simpl.
    split; [done|]. split; [done|]. apply last_snoc.
Qed.

Lemma call_ok_event ctx c w w' :
  call ctx c w = Ok w' -> logs w' = logs w ++ [declared_event ctx c w].
Proof.
  unfold call, declared_event. destruct c as [a s|d|t cl p|pl|al|t cl p].
  - destruct (N.le_gt_cases (sensorDataCount (storage w) + 1) max_uint256) as [Hle|Hgt].
    + rewrite submitEncryptedSensorData_ok by done. by intros [= <-].
    + by rewrite submitEncryptedSensorData_overflow.
  - rewrite requestAnomalyDetection_cases. cbv zeta.
    destruct (_ =? 0); [done|]. by intros [= <-].
  - rewrite handleAnomalyResult_cases. cbv zeta.
    destruct (_ =? 0); [done|]. destruct (isHandled _); [done|].
    destruct (negb _); [done|]. destruct (abi_decode_strings cl); [|done].
    by intros [= <-].
  - destruct (N.le_gt_cases (alertCount (storage w) + 1) max_uint256) as [Hle|Hgt].
    + rewrite submitEncryptedAlert_ok by done. by intros [= <-].
    + by rewrite submitEncryptedAlert_overflow.
  - rewrite requestAlertDecryption_cases. cbv zeta.
    destruct (_ =? 0); [done|]. by intros [= <-].
  - rewrite handleAlertCleartext_cases. cbv zeta.
    destruct (_ =? 0); [done|]. destruct (negb _); [done|].
    destruct (abi_decode_string cl); [|done]. by intros [= <-].
Qed.

Lemma call_lib_event ctx c w w' :
  call_lib accepts ctx c w = Committed w' ->
  logs w' = logs w ++ [declared_event ctx c w].
Proof.
  unfold call_lib. destruct c as [a s|d|t cl p|pl|al|t cl p].
  1,3,4,6: (match goal with |- of_result ?r = _ -> _ =>
              destruct r as [w0|f] eqn:Hcall; simpl; [|done] end;
            intros [= <-]; exact (call_ok_event _ _ _ _ Hcall)).
  - unfold requestAnomalyDetection_lib, try_requestDecryption.
    destruct (_ =? 0); [done|]. destruct (accepts _ _ _); [|done].
    destruct (requestDecryption _ _ _). by intros [= <-].
  - unfold requestAlertDecryption_lib, try_requestDecryption.
    destruct (_ =? 0); [done|]. destruct (accepts _ _ _); [|done].
    destruct (requestDecryption _ _ _). by intros [= <-].
Qed.

(** X7.  The log only grows: a committed call keeps the log it found as a
    prefix and ends by emitting the event its entry point declares, carrying
    the id the call acted on; over any trace, with a library that may refuse
    requests, the old log is a prefix of the new one. *)
Theorem log_only_grows :
  (forall ctx c w w',
     call_lib accepts ctx c w = Committed w' ->
     logs w `prefix_of` logs w'
     /\ last (logs w') = Some (declared_event ctx c w))
  /\ (forall txs w, logs w `prefix_of` logs (run_lib accepts txs w)).
Proof.
  split.
  - intros ctx c w w' Hok. rewrite (call_lib_event _ _ _ _ Hok). split.
    + by apply prefix_app_r.
    + apply last_snoc.
  - induction txs as [|[ctx c] txs IH]; intros w; simpl; [done|].
    etrans; [|apply IH]. unfold transact_lib.
    destruct (call_lib accepts ctx c w) as [w'| |] eqn:Hcall; [|done..].
    rewrite (call_lib_event _ _ _ _ Hcall). by apply prefix_app_r.
Qed.

End RequestsAgainstTheLibrary.

(** *** Requests against the library on the worked scenario *)


Lemma reachable_lib_w_handled_then_stored :
  reachable_lib (F := Reference.fhevm) Acl.opened Acl.w_handled_then_stored.
Proof.
  exists 0, [Reference.submit_tx; Reference.request_tx; Reference.deliver_tx;
             (Reference.ctx0, SubmitEncryptedSensorData 33 44)].
  unfold Acl.w_handled_then_stored. exact eq_refl.
Qed.




(** X1 there: two records are stored and no alert, so the guards fail for
    record id 3 and for alert id 1. *)
Lemma request_guards_fail_exactly_outside_stored_ids_witness :
  reachable_lib (F := Reference.fhevm) Acl.opened Acl.w_handled_then_stored
  /\ requestAnomalyDetection_lib (F := Reference.fhevm) Acl.opened Reference.ctx0 3
       Acl.w_handled_then_stored = Reverted DataNotFound
  /\ requestAlertDecryption_lib (F := Reference.fhevm) Acl.opened Reference.ctx0 1
       Acl.w_handled_then_stored = Reverted AlertNotFound.
Proof.
  split; [exact reachable_lib_w_handled_then_stored|].
  assert (Hc : sensorDataCount (storage Acl.w_handled_then_stored) = 2)
    by (vm_compute; reflexivity).
  assert (Ha : alertCount (storage Acl.w_handled_then_stored) = 0)
    by (vm_compute; reflexivity).
  destruct (request_guards_fail_exactly_outside_stored_ids (F := Reference.fhevm)
              Acl.opened Acl.w_handled_then_stored
              reachable_lib_w_handled_then_stored Reference.ctx0 3)
    as (Hrec & _ & _ & _).
  destruct (request_guards_fail_exactly_outside_stored_ids (F := Reference.fhevm)
              Acl.opened Acl.w_handled_then_stored
              reachable_lib_w_handled_then_stored Reference.ctx0 1)
    as (_ & _ & Hal & _).
  split; [apply Hrec; rewrite Hc; lia|apply Hal; rewrite Ha; lia].
Defined.

(** X11 there: record 1 is stored with handles [(11, 22)]; after an alert
    submission the request for it asks for [[11; 22]]: with these handles
    allowed it commits and registers request id 0, with nothing allowed it is
    refused. *)
Lemma request_hands_library_the_submitted_handles_witness :
  (exists w',
     requestAnomalyDetection_lib (F := Reference.fhevm) Acl.opened Reference.ctx0 1
       (run_lib (F := Reference.fhevm) Acl.opened
          [(Reference.ctx0, SubmitEncryptedAlert 99)] Acl.w_stored) = Committed w'
     /\ sload (requestToDataId (storage w')) 0 = 1)
  /\ requestAnomalyDetection_lib (F := Reference.fhevm) Acl.closed Reference.ctx0 1
       (run_lib (F := Reference.fhevm) Acl.closed
          [(Reference.ctx0, SubmitEncryptedAlert 99)] Acl.w_stored) = LibraryReverted.
Proof.
  assert (Hsub : submitEncryptedSensorData (F := Reference.fhevm) Reference.ctx0 11 22
                   (genesis (F := Reference.fhevm) 0) = Ok Acl.w_stored)
    by (vm_compute; reflexivity).
  split.
  - destruct (request_hands_library_the_submitted_handles (F := Reference.fhevm)
                Acl.opened _ _ _ _ _ [(Reference.ctx0, SubmitEncryptedAlert 99)]
                Reference.ctx0 Hsub) as (_ & _ & Hyes).
    destruct Hyes as (w' & Hout & Hmap & _); [vm_compute; reflexivity|].
    exists w'. split; [exact Hout|]. rewrite Hmap. vm_compute. reflexivity.
  - destruct (request_hands_library_the_submitted_handles (F := Reference.fhevm)
                Acl.closed _ _ _ _ _ [(Reference.ctx0, SubmitEncryptedAlert 99)]
                Reference.ctx0 Hsub) as (_ & Hno & _).
    apply Hno. vm_compute. reflexivity.
Defined.
